(** * Dataset partitioning and batching of combiningSatellite-StreetView

    A shallow embedding of [src/tools/datasets_satellite_into_sview.py]:
    the [Dataset] class and its subclasses [Dataset_CrossValidation],
    [Dataset_TVT], [Dataset_TT] and [Dataset_TT_byclass].

    Modelling choices:
    - sample indices and batch sizes are [nat] (they are counts / positions);
      class labels are [Z];
    - the floating point feature values are not interpreted: the HDF5
      feature store, the satellite raster and the metadata table are
      random-access functions of the sample index; the float64 arithmetic
      of [soften_ordinal_labels] is the kernel's binary64 floats;
    - the process-wide numpy random generator, the file system (pickle and
      csv files) and the dataset object form the explicit state [World],
      threaded through an error/state monad [M]. *)

From Stdlib Require Import String List Arith Lia ZArith QArith Qround Lqa Bool Sorted Permutation.
From Stdlib Require PrimFloat.
Import ListNotations.
Open Scope nat_scope.

(* ------------------------------------------------------------------ *)
(** ** Values, files and errors *)

(** A cell of a pandas table written with [to_csv]. *)
Inductive Cell : Type :=
| CStr (s : string)
| CNum (z : Z).

(** A csv table: header row and data rows. *)
Record Table : Type := mkTable {
  header : list string;
  rows_of : list (list Cell)
}.

(** Contents of a file: a pickled index list, a pickled list of folds, or a
    csv table. *)
Inductive File : Type :=
| FPart (p : list nat)
| FFolds (ps : list (list nat))
| FTable (t : Table).

(** Python exceptions that the modelled code can raise. *)
Inductive PyErr : Type :=
| IOError            (* missing file on [pickle.load(open(...))] *)
| ValidationError    (* bad fraction given to a partitioning function *)
| OutOfRange         (* fold index out of range *)
| ZeroDivisionError  (* [x / 0.0] *)
| ValueError         (* [np.append] of arrays with different row counts *)
| IndexError         (* h5py read at an index past the last sample *)
| TypeError.         (* h5py read at indices that are not increasing *)

Inductive Exc (A : Type) : Type :=
| Ok (a : A)
| Raise (e : PyErr).
Arguments Ok {A} a.
Arguments Raise {A} e.

(* ------------------------------------------------------------------ *)
(** ** The [Dataset] object *)

(** The data read by [__init__]: never modified afterwards. *)
Record Source : Type := mkSource {
  codes : nat -> nat -> list Z;     (* normalize_features(self.codes[i, v, :]) *)
  labels : list Z;                  (* map_labels(raw_label_data[label_name]) *)
  vmap : nat -> list Cell;          (* raw_label_data[['img_id','pcd','oa11','lsoa11']][i] *)
  gsv_lat : nat -> Z;
  gsv_lng : nat -> Z;
  sat_patch : Z -> Z -> list Z;     (* normalize_satellite(log(patch at (lat, lng))) *)
  label_name : string;
  label_test : list Z               (* Dataset_TT_byclass only *)
}.

(** The attributes that the methods assign. *)
Record Dataset : Type := mkDataset {
  src : Source;
  kpartitions : list (list nat);    (* Dataset_CrossValidation only *)
  train_part : list nat;
  validation_part : list nat;
  test_part : list nat;
  batch_ind : nat;
  batch_ind_valid : nat;
  batch_ind_test : nat
}.

Definition set_batch_ind (b : nat) (d : Dataset) : Dataset :=
  {| src := src d; kpartitions := kpartitions d; train_part := train_part d;
     validation_part := validation_part d; test_part := test_part d;
     batch_ind := b; batch_ind_valid := batch_ind_valid d;
     batch_ind_test := batch_ind_test d |}.

Definition set_batch_ind_valid (b : nat) (d : Dataset) : Dataset :=
  {| src := src d; kpartitions := kpartitions d; train_part := train_part d;
     validation_part := validation_part d; test_part := test_part d;
     batch_ind := batch_ind d; batch_ind_valid := b;
     batch_ind_test := batch_ind_test d |}.

Definition set_batch_ind_test (b : nat) (d : Dataset) : Dataset :=
  {| src := src d; kpartitions := kpartitions d; train_part := train_part d;
     validation_part := validation_part d; test_part := test_part d;
     batch_ind := batch_ind d; batch_ind_valid := batch_ind_valid d;
     batch_ind_test := b |}.

Definition set_kpartitions (kp : list (list nat)) (d : Dataset) : Dataset :=
  {| src := src d; kpartitions := kp; train_part := train_part d;
     validation_part := validation_part d; test_part := test_part d;
     batch_ind := batch_ind d; batch_ind_valid := batch_ind_valid d;
     batch_ind_test := batch_ind_test d |}.

Definition set_train_part (p : list nat) (d : Dataset) : Dataset :=
  {| src := src d; kpartitions := kpartitions d; train_part := p;
     validation_part := validation_part d; test_part := test_part d;
     batch_ind := batch_ind d; batch_ind_valid := batch_ind_valid d;
     batch_ind_test := batch_ind_test d |}.

Definition set_validation_part (p : list nat) (d : Dataset) : Dataset :=
  {| src := src d; kpartitions := kpartitions d; train_part := train_part d;
     validation_part := p; test_part := test_part d;
     batch_ind := batch_ind d; batch_ind_valid := batch_ind_valid d;
     batch_ind_test := batch_ind_test d |}.

Definition set_test_part (p : list nat) (d : Dataset) : Dataset :=
  {| src := src d; kpartitions := kpartitions d; train_part := train_part d;
     validation_part := validation_part d; test_part := p;
     batch_ind := batch_ind d; batch_ind_valid := batch_ind_valid d;
     batch_ind_test := batch_ind_test d |}.

(** [Dataset.__init__] (with [Dataset_TT_byclass]'s extra [label_test]):
    the cursors start at 0 and the partitions are empty place holders.
    [raw_labels] is the csv column [label_name]. *)
Definition init (codes0 : nat -> nat -> list Z) (raw_labels : list Z)
  (vmap0 : nat -> list Cell) (lat lng : nat -> Z) (patch : Z -> Z -> list Z)
  (name : string) (ltest : list Z) : Dataset :=
  {| src := {| codes := codes0; labels := map (fun x => (x - 1)%Z) raw_labels;
               vmap := vmap0; gsv_lat := lat; gsv_lng := lng; sat_patch := patch;
               label_name := name; label_test := ltest |};
     kpartitions := []; train_part := []; validation_part := []; test_part := [];
     batch_ind := 0; batch_ind_valid := 0; batch_ind_test := 0 |}.

(* ------------------------------------------------------------------ *)
(** ** Python and numpy helpers *)

(** [np.unique]: the sorted distinct values. *)
Fixpoint insert_uniq (x : Z) (l : list Z) : list Z :=
  match l with
  | [] => [x]
  | y :: t =>
      if (x <? y)%Z then x :: l
      else if (x =? y)%Z then l
      else y :: insert_uniq x t
  end.

Definition unique (l : list Z) : list Z := fold_right insert_uniq [] l.

(** [self.label_types] and [self.num_labels]. *)
Definition label_types (d : Dataset) : list Z := unique (labels (src d)).
Definition num_labels (d : Dataset) : nat := length (label_types d).

(** [self.labels[i]]. *)
Definition label_at (d : Dataset) (i : nat) : Z := nth i (labels (src d)) 0%Z.

(** The samples of [part] labelled [lab]. *)
Definition class_members (d : Dataset) (lab : Z) (part : list nat) : list nat :=
  filter (fun i => (label_at d i =? lab)%Z) part.

(** Python's [sorted] on a list of ints (insertion sort). *)
Fixpoint insert (x : nat) (l : list nat) : list nat :=
  match l with
  | [] => [x]
  | y :: t => if x <=? y then x :: l else y :: insert x t
  end.

Fixpoint sorted (l : list nat) : list nat :=
  match l with
  | [] => []
  | x :: t => insert x (sorted t)
  end.

(** The slice [xs[a : b]] with [0 <= a]. *)
Definition slice (a b : nat) (xs : list nat) : list nat :=
  firstn (b - a) (skipn a xs).

(** [int(np.ceil(n / b))] for [b >= 1]. *)
Definition ceil_div (n b : nat) : nat := (n + b - 1) / b.

(* ------------------------------------------------------------------ *)
(** ** The world and its monad *)

Record World : Type := mkWorld {
  wds : Dataset;                    (* the dataset object *)
  rng : Z;                          (* the global numpy random state *)
  files : list (string * File)      (* the file system, latest write first *)
}.

Definition set_ds (d : Dataset) (w : World) : World :=
  {| wds := d; rng := rng w; files := files w |}.

Definition M (A : Type) : Type := World -> Exc (A * World).

Definition ret {A} (a : A) : M A := fun w => Ok (a, w).

Definition bind {A B} (m : M A) (f : A -> M B) : M B :=
  fun w => match m w with
           | Ok (a, w') => f a w'
           | Raise e => Raise e
           end.

Definition raise {A} (e : PyErr) : M A := fun _ => Raise e.

Notation "x <- m ;; k" := (bind m (fun x => k))
  (at level 61, m at next level, right associativity).

Definition get_ds : M Dataset := fun w => Ok (wds w, w).
Definition put_ds (d : Dataset) : M unit := fun w => Ok (tt, set_ds d w).

(** [n] consecutive calls of [m]. *)
Fixpoint repeat_call {A} (n : nat) (m : M A) : M (list A) :=
  match n with
  | 0 => ret []
  | S n' => x <- m;; xs <- repeat_call n' m;; ret (x :: xs)
  end.

(* ------------------------------------------------------------------ *)
(** ** [Dataset.get_data_part] *)

(** The six arrays returned by [get_data_part]: four street-view feature
    blocks, the satellite patches and the one-hot labels, one row per
    fetched sample. *)
Record DataPart : Type := mkDataPart {
  d1 : list (list Z);
  d2 : list (list Z);
  d3 : list (list Z);
  d4 : list (list Z);
  img : list (list Z);
  l : list (list Z)
}.

(** Row of the one-hot label matrix for a sample labelled [lab]: column [k]
    is 1 iff [lab == label_types[k]]. *)
Definition onehot (d : Dataset) (lab : Z) : list Z :=
  map (fun t => if (lab =? t)%Z then 1%Z else 0%Z) (label_types d).

(** The six arrays that [get_data_part(rows)] returns, with
    [noise_std=None] (as every batch getter calls it), when its reads
    succeed: all data are fetched at [srows = sorted(rows)]. Its exceptions
    are added by [get_data_part_call] below; the batch getters call it on
    slices of partitions, whose indices are distinct samples. *)
Definition get_data_part (d : Dataset) (rows : list nat) : DataPart :=
  let srows := sorted rows in
  {| d1 := map (fun i => codes (src d) i 0) srows;
     d2 := map (fun i => codes (src d) i 1) srows;
     d3 := map (fun i => codes (src d) i 2) srows;
     d4 := map (fun i => codes (src d) i 3) srows;
     img := map (fun i => sat_patch (src d) (gsv_lat (src d) i) (gsv_lng (src d) i)) srows;
     l := map (fun i => onehot d (label_at d i)) srows |}.

(** The fetch contract read from the spec's words ("results re-expanded to
    the caller's original request order"): the same arrays, one row per
    requested index, in the order of [rows]. Compared with [get_data_part]
    below. *)
Definition fetch_in_request_order (d : Dataset) (rows : list nat) : DataPart :=
  {| d1 := map (fun i => codes (src d) i 0) rows;
     d2 := map (fun i => codes (src d) i 1) rows;
     d3 := map (fun i => codes (src d) i 2) rows;
     d4 := map (fun i => codes (src d) i 3) rows;
     img := map (fun i => sat_patch (src d) (gsv_lat (src d) i) (gsv_lng (src d) i)) rows;
     l := map (fun i => onehot d (label_at d i)) rows |}.

(** [xs[0] < xs[1] < ...]. *)
Fixpoint increasing (xs : list nat) : bool :=
  match xs with
  | x :: ((y :: _) as t) => (x <? y) && increasing t
  | _ => true
  end.

(** The first read of [get_data_part], [self.codes[srows, 0, :]], is an h5py
    point selection on the feature store, which holds one row per sample
    ([n = len(self.labels)] rows). h5py (3.x) raises IndexError when an
    index is past the last row, and otherwise TypeError when the indices
    are not strictly increasing: as [srows] is sorted, when an index is
    repeated. When this read succeeds, so do the reads of [self.codes],
    [self.labels], [self.gsv_lat] and [self.gsv_lng] that follow it, at the
    same indices. *)
Definition fetch_error (n : nat) (srows : list nat) : option PyErr :=
  if existsb (fun i => n <=? i) srows then Some IndexError
  else if increasing srows then None
  else Some TypeError.

(** [get_data_part(rows)] with its exceptions. *)
Definition get_data_part_call (d : Dataset) (rows : list nat) : Exc DataPart :=
  match fetch_error (length (labels (src d))) (sorted rows) with
  | Some e => Raise e
  | None => Ok (get_data_part d rows)
  end.

(* ------------------------------------------------------------------ *)
(** ** Sequential batch getters *)

Definition get_train_batch (batch_size : nat) : M DataPart :=
  d <- get_ds;;
  let rows := slice (batch_ind d) (batch_ind d + batch_size) (train_part d) in
  let out := get_data_part d rows in
  let bi := batch_ind d + batch_size in
  let bi := if length (train_part d) <=? bi then 0 else bi in
  _ <- put_ds (set_batch_ind bi d);;
  ret out.

Definition get_validation_batch (batch_size : nat) : M DataPart :=
  d <- get_ds;;
  let rows := slice (batch_ind_valid d) (batch_ind_valid d + batch_size)
                (validation_part d) in
  let out := get_data_part d rows in
  let bi := batch_ind_valid d + batch_size in
  let bi := if length (validation_part d) <=? bi then 0 else bi in
  _ <- put_ds (set_batch_ind_valid bi d);;
  ret out.

Definition get_test_batch (batch_size : nat) : M DataPart :=
  d <- get_ds;;
  let rows := slice (batch_ind_test d) (batch_ind_test d + batch_size)
                (test_part d) in
  let out := get_data_part d rows in
  let bi := batch_ind_test d + batch_size in
  let bi := if length (test_part d) <=? bi then 0 else bi in
  _ <- put_ds (set_batch_ind_test bi d);;
  ret out.

(** The three getters above share one shape: a partition, its cursor and
    the setter of that cursor. *)
Definition seq_batch (part : Dataset -> list nat) (cur : Dataset -> nat)
  (setc : nat -> Dataset -> Dataset) (batch_size : nat) : M DataPart :=
  d <- get_ds;;
  let rows := slice (cur d) (cur d + batch_size) (part d) in
  let out := get_data_part d rows in
  let bi := cur d + batch_size in
  let bi := if length (part d) <=? bi then 0 else bi in
  _ <- put_ds (setc bi d);;
  ret out.

(* ------------------------------------------------------------------ *)
(** ** Iterators *)

(** The index slices [part[n*b : (n+1)*b]] for [n in range(num_iter)]. *)
Definition batch_slices (batch_num : nat) (part : list nat) : list (list nat) :=
  map (fun n => slice (n * batch_num) ((n + 1) * batch_num) part)
      (seq 0 (ceil_div (length part) batch_num)).

(** [test_iterator(batch_num)]: the list of yielded values
    [(get_data_part(rows), vmap[sorted(rows), :])]; [len / 0] raises. *)
Definition test_iterator (batch_num : nat)
  : M (list (DataPart * list (list Cell))) :=
  d <- get_ds;;
  if batch_num =? 0 then raise ZeroDivisionError
  else ret (map (fun rows => (get_data_part d rows, map (vmap (src d)) (sorted rows)))
                (batch_slices batch_num (test_part d))).

Definition validation_iterator (batch_num : nat) : M (list DataPart) :=
  d <- get_ds;;
  if batch_num =? 0 then raise ZeroDivisionError
  else ret (map (get_data_part d) (batch_slices batch_num (validation_part d))).

(* ------------------------------------------------------------------ *)
(** ** The global random generator *)

(** One step of the process-wide generator (a Park-Miller generator stands
    for numpy's Mersenne twister; only the fact that each draw consumes
    and advances the shared state matters here). *)
Definition next_state (r : Z) : Z := (r * 48271 mod 2147483647)%Z.

Fixpoint remove_nth (k : nat) (xs : list nat) : list nat :=
  match xs, k with
  | [], _ => []
  | _ :: t, 0 => t
  | x :: t, S k' => x :: remove_nth k' t
  end.

(** A random permutation: repeatedly draw a position among the remaining
    elements and emit that element. *)
Fixpoint permute_fuel (fuel : nat) (r : Z) (xs : list nat) : list nat * Z :=
  match fuel with
  | 0 => ([], r)
  | S f =>
      match xs with
      | [] => ([], r)
      | _ :: _ =>
          let k := Z.to_nat (r mod Z.of_nat (length xs)) in
          let '(ys, r') := permute_fuel f (next_state r) (remove_nth k xs) in
          (nth k xs 0 :: ys, r')
      end
  end.

(** [np.random.permutation(xs)]: the permutation and the new state. *)
Definition permutation (r : Z) (xs : list nat) : list nat * Z :=
  permute_fuel (length xs) r xs.

Definition get_rng : M Z := fun w => Ok (rng w, w).
Definition put_rng (r : Z) : M unit :=
  fun w => Ok (tt, {| wds := wds w; rng := r; files := files w |}).

(* ------------------------------------------------------------------ *)
(** ** Balanced batch getters *)

(** [np.where(self.labels[part] == lab)[0]]: the positions [j] (counted
    from [j0]) of the samples of [part] labelled [lab]. *)
Fixpoint where_eq (d : Dataset) (lab : Z) (j0 : nat) (part : list nat)
  : list nat :=
  match part with
  | [] => []
  | i :: t =>
      if (label_at d i =? lab)%Z then j0 :: where_eq d lab (S j0) t
      else where_eq d lab (S j0) t
  end.

(** The loop [for l in self.label_types: lrows = ...; rows += ...]. *)
Fixpoint balanced_rows (d : Dataset) (part : list nat) (lbatch_size : nat)
  (types : list Z) (r : Z) : list nat * Z :=
  match types with
  | [] => ([], r)
  | lab :: ts =>
      let '(p, r1) := permutation r (where_eq d lab 0 part) in
      let lrows := firstn lbatch_size p in
      let '(rest, r2) := balanced_rows d part lbatch_size ts r1 in
      (map (fun j => nth j part 0) lrows ++ rest, r2)
  end.

(** [lbatch_size = np.int(batch_size / np.float(lsize))]: the float
    quotient of two non-negative ints below 2^53 truncates to their integer
    quotient; dividing by [0.0] raises. *)
Definition get_balanced_train_batch (batch_size : nat) : M DataPart :=
  d <- get_ds;;
  let lsize := length (label_types d) in
  if lsize =? 0 then raise ZeroDivisionError
  else
    r <- get_rng;;
    let '(rows, r') := balanced_rows d (train_part d) (batch_size / lsize)
                         (label_types d) r in
    _ <- put_rng r';;
    ret (get_data_part d rows).

Definition get_balanced_validation_batch (batch_size : nat) : M DataPart :=
  d <- get_ds;;
  let lsize := length (label_types d) in
  if lsize =? 0 then raise ZeroDivisionError
  else
    r <- get_rng;;
    let '(rows, r') := balanced_rows d (validation_part d) (batch_size / lsize)
                         (label_types d) r in
    _ <- put_rng r';;
    ret (get_data_part d rows).

(* ------------------------------------------------------------------ *)
(** ** Prediction export *)

Definition write_file (fname : string) (f : File) : M unit :=
  fun w => Ok (tt, {| wds := wds w; rng := rng w; files := (fname, f) :: files w |}).

(** [pd.read_csv]/[pickle.load] of the latest write of [fname]. *)
Fixpoint lookup_file (fname : string) (fs : list (string * File)) : option File :=
  match fs with
  | [] => None
  | (n, f) :: t => if String.eqb n fname then Some f else lookup_file fname t
  end.

(** The columns [['img_id', 'pcd', 'oa11', 'lsoa11', label_name, 'predicted']]. *)
Definition pred_header (d : Dataset) : list string :=
  ["img_id"; "pcd"; "oa11"; "lsoa11"; label_name (src d); "predicted"]%string.

(** One row of [data_matrix]: [vmap[i, :]], [labels[i]], the prediction. *)
Definition pred_row (d : Dataset) (i : nat) (p : Z) : list Cell :=
  vmap (src d) i ++ [CNum (label_at d i); CNum p].

(** The body shared by [write_preds] and the [write_preds_validation]
    methods, for [srows] the sorted partition: [np.append] along axis 1
    raises when [preds] has another number of rows. *)
Definition write_pred_matrix (d : Dataset) (srows : list nat) (preds : list Z)
  (fname : string) : M unit :=
  if negb (length preds =? length srows) then raise ValueError
  else write_file fname
         (FTable {| header := pred_header d;
                    rows_of := map (fun '(i, p) => pred_row d i p)
                                   (combine srows preds) |}).

Definition write_preds (preds : list Z) (fname : string) : M unit :=
  d <- get_ds;;
  let srows := sorted (test_part d) in
  write_pred_matrix d srows preds fname.

(** [Dataset_TVT.write_preds_validation], and the identical bodies of
    [Dataset_TT.write_preds_validation] and
    [Dataset_TT_byclass.write_preds_validation]. *)
Definition write_preds_validation (preds : list Z) (fname : string) : M unit :=
  d <- get_ds;;
  let srows := sorted (validation_part d) in
  write_pred_matrix d srows preds fname.

(** The validation getters of [Dataset_TT] and [Dataset_TT_byclass]. *)
Module TwoWay.
Definition get_validation_batch (batch_size : nat) : M DataPart :=
  get_train_batch batch_size.
Definition get_balanced_validation_batch (batch_size : nat) : M DataPart :=
  get_balanced_train_batch batch_size.
Definition write_preds_validation (preds : list Z) (fname : string) : M unit :=
  write_preds_validation preds fname.
End TwoWay.

(* ------------------------------------------------------------------ *)
(** ** The [partitioning] module *)

(** Modelled from the spec: the module [partitioning] imported by the
    dataset code is not among the sources. Its functions are written from
    the spec's section 4.1, for the unconstrained case ([clabels=None]):
    each class's samples are randomly permuted and split by
    [round(fraction * count)]; fractions outside (0, 1) raise a validation
    error; a seed gives a deterministic draw, no seed draws from the
    process-level generator. *)
Definition frac_ok (q : Q) : bool :=
  negb (Qle_bool q 0) && negb (Qle_bool 1 q).

(** [round(q * n)], halves rounded up. *)
Definition round_frac (q : Q) (n : nat) : nat :=
  Z.to_nat (Qfloor (q * inject_Z (Z.of_nat n) + (1 # 2))).

(** Per class (ascending label order): permute its members of [part] and put
    the first [round(q * count)] on the left, the rest on the right. *)
Fixpoint split_by_class (d : Dataset) (part : list nat) (q : Q) (types : list Z)
  (r : Z) : (list nat * list nat) * Z :=
  match types with
  | [] => (([], []), r)
  | lab :: ts =>
      let '(p, r1) := permutation r (class_members d lab part) in
      let k := round_frac q (length p) in
      let '((a, b), r2) := split_by_class d part q ts r1 in
      ((firstn k p ++ a, skipn k p ++ b), r2)
  end.

(** Run a random draw from the seed if one is given, else from the
    process-level generator. *)
Definition with_seed {A} (seed : option Z) (f : Z -> A * Z) : M A :=
  match seed with
  | Some s => ret (fst (f s))
  | None => r <- get_rng;; let '(x, r') := f r in _ <- put_rng r';; ret x
  end.

Definition all_samples (d : Dataset) : list nat := seq 0 (length (labels (src d))).

(** Modelled from the spec: [partition_stratified(labels, train_size, seed)]. *)
Definition partition_stratified (d : Dataset) (train_size : Q) (seed : option Z)
  : M (list nat * list nat) :=
  if negb (frac_ok train_size) then raise ValidationError
  else with_seed seed (split_by_class d (all_samples d) train_size (label_types d)).

(** Modelled from the spec: [partition_stratified_validation]: two chained
    two-way splits, the second one of the remainder of the first. *)
Definition partition_stratified_validation (d : Dataset) (train_size valid_size : Q)
  (seed : option Z) : M (list nat * list nat * list nat) :=
  if negb (frac_ok train_size && frac_ok valid_size) then raise ValidationError
  else with_seed seed (fun r =>
    let '((tr, rest), r1) := split_by_class d (all_samples d) train_size (label_types d) r in
    let '((va, te), r2) := split_by_class d rest (valid_size / (1 - train_size))
                             (label_types d) r1 in
    ((tr, va, te), r2)).

(** Deal [xs] round-robin into [k] folds. *)
Definition deal (k : nat) (xs : list nat) : list (list nat) :=
  map (fun f => map snd (filter (fun '(p, _) => p mod k =? f)
                                (combine (seq 0 (length xs)) xs)))
      (seq 0 k).

(** Each class's members, permuted, one class after the other. *)
Fixpoint permuted_classes (d : Dataset) (types : list Z) (r : Z) : list nat * Z :=
  match types with
  | [] => ([], r)
  | lab :: ts =>
      let '(p, r1) := permutation r (class_members d lab (all_samples d)) in
      let '(rest, r2) := permuted_classes d ts r1 in
      (p ++ rest, r2)
  end.

(** Modelled from the spec: [partition_stratified_kfold(k, labels, seed)]. *)
Definition partition_stratified_kfold (k : nat) (d : Dataset) (seed : option Z)
  : M (list (list nat)) :=
  if k =? 0 then raise ValidationError
  else with_seed seed (fun r =>
    let '(p, r') := permuted_classes d (label_types d) r in (deal k p, r')).

(** Modelled from the spec: [get_partition_stratified_kfold(i, folds)]:
    test is fold [i], train the other folds. *)
Definition get_partition_stratified_kfold (i : nat) (folds : list (list nat))
  : M (list nat * list nat) :=
  if i <? length folds then
    ret (concat (map (fun j => nth j folds [])
                     (filter (fun j => negb (j =? i)) (seq 0 (length folds)))),
         nth i folds [])
  else raise OutOfRange.

(** Modelled from the spec: [decimate_partition_stratified(part, labels,
    psize)]: the kept stratified subset and the remainder; the call sites
    give no seed, so the draw is from the process-level generator. *)
Definition decimate_partition_stratified (d : Dataset) (part : list nat) (psize : Q)
  : M (list nat * list nat) :=
  if negb (frac_ok psize) then raise ValidationError
  else with_seed None (split_by_class d part psize (label_types d)).

(** Modelled from the spec: [partition_by_class(labels, label_test)]: test
    is the samples whose label is in [label_test]. *)
Definition partition_by_class (d : Dataset) (ltest : list Z) (seed : option Z)
  : M (list nat * list nat) :=
  let held := fun i => existsb (fun t => (label_at d i =? t)%Z) ltest in
  ret (filter (fun i => negb (held i)) (all_samples d),
       filter held (all_samples d)).

(* ------------------------------------------------------------------ *)
(** ** [pick_label] of the four subclasses *)

Definition modify_ds (f : Dataset -> Dataset) : M unit :=
  fun w => Ok (tt, set_ds (f (wds w)) w).

(** [x < y] on floats. *)
Definition Qltb (x y : Q) : bool := negb (Qle_bool y x).

(** [pickle.load(open(fname, 'rb'))] of an index list / a list of folds. *)
Definition read_part (fname : string) : M (list nat) :=
  fun w => match lookup_file fname (files w) with
           | Some (FPart p) => Ok (p, w)
           | _ => Raise IOError
           end.

Definition read_folds (fname : string) : M (list (list nat)) :=
  fun w => match lookup_file fname (files w) with
           | Some (FFolds ps) => Ok (ps, w)
           | _ => Raise IOError
           end.

Definition sfx_train : string := "_train".
Definition sfx_validation : string := "_validation".
Definition sfx_test : string := "_test".

Module CrossValidation.
(** [part_gen == 1]: generate the folds (twice, as the source does) and
    pickle them. *)
Definition generate (d : Dataset) (part_file : string) (part_kn : nat)
  (seed : option Z) : M (list (list nat)) :=
  kp0 <- partition_stratified_kfold part_kn d seed;;
  _ <- modify_ds (set_kpartitions kp0);;
  kp <- partition_stratified_kfold part_kn d seed;;
  _ <- modify_ds (set_kpartitions kp);;
  _ <- write_file part_file (FFolds kp);;
  ret kp.

(** Otherwise: read the folds written before. *)
Definition load (part_file : string) : M (list (list nat)) :=
  kp <- read_folds part_file;;
  _ <- modify_ds (set_kpartitions kp);;
  ret kp.

(** Test fold [part_kp]; with [vsize > 0.0] the other folds are decimated
    into train and validation parts. *)
Definition assign_parts (d : Dataset) (kp : list (list nat)) (part_kp : nat)
  (vsize : Q) : M unit :=
  p <- get_partition_stratified_kfold part_kp kp;;
  let '(tr0, te) := p in
  _ <- modify_ds (set_test_part te);;
  if Qltb 0 vsize then
    q <- decimate_partition_stratified d tr0 (1 - vsize);;
    let '(tr, va) := q in
    modify_ds (fun d => set_validation_part va (set_train_part tr d))
  else modify_ds (set_train_part tr0).

Definition pick_label (part_gen : Z) (part_file : string) (part_kn part_kp : nat)
  (vsize : Q) (seed : option Z) : M unit :=
  d <- get_ds;;
  kp <- (if (part_gen =? 1)%Z then generate d part_file part_kn seed
         else load part_file);;
  assign_parts d kp part_kp vsize.
End CrossValidation.

(** The closing block of the [pick_label] of [Dataset_TVT], [Dataset_TT] and
    [Dataset_TT_byclass]: [if psize < 1.0] the train part is decimated. *)
Definition assign_train_part (d : Dataset) (tr0 : list nat) (psize : Q) : M unit :=
  if Qltb psize 1 then
    q <- decimate_partition_stratified d tr0 psize;;
    modify_ds (set_train_part (fst q))
  else modify_ds (set_train_part tr0).

Module TVT.
Definition generate (d : Dataset) (part_file : string) (train_size valid_size : Q)
  (seed : option Z) : M (list nat) :=
  p <- partition_stratified_validation d train_size valid_size seed;;
  let '(tr0, va, te) := p in
  _ <- modify_ds (fun d => set_test_part te (set_validation_part va d));;
  _ <- write_file (part_file ++ sfx_train) (FPart tr0);;
  _ <- write_file (part_file ++ sfx_validation) (FPart va);;
  _ <- write_file (part_file ++ sfx_test) (FPart te);;
  ret tr0.

Definition load (part_file : string) : M (list nat) :=
  tr0 <- read_part (part_file ++ sfx_train);;
  va <- read_part (part_file ++ sfx_validation);;
  _ <- modify_ds (set_validation_part va);;
  te <- read_part (part_file ++ sfx_test);;
  _ <- modify_ds (set_test_part te);;
  ret tr0.

Definition pick_label (part_gen : Z) (part_file : string) (train_size valid_size : Q)
  (psize : Q) (seed : option Z) : M unit :=
  d <- get_ds;;
  tr0 <- (if (part_gen =? 1)%Z then generate d part_file train_size valid_size seed
          else load part_file);;
  assign_train_part d tr0 psize.
End TVT.

(** [Dataset_TT.pick_label] and [Dataset_TT_byclass.pick_label] differ only
    in the partitioning function used in generation mode. *)
Module TT.
Definition generate (gen : Dataset -> M (list nat * list nat)) (d : Dataset)
  (part_file : string) : M (list nat) :=
  p <- gen d;;
  let '(tr0, te) := p in
  _ <- modify_ds (set_test_part te);;
  _ <- write_file (part_file ++ sfx_train) (FPart tr0);;
  _ <- write_file (part_file ++ sfx_test) (FPart te);;
  ret tr0.

Definition load (part_file : string) : M (list nat) :=
  tr0 <- read_part (part_file ++ sfx_train);;
  te <- read_part (part_file ++ sfx_test);;
  _ <- modify_ds (set_test_part te);;
  ret tr0.

Definition pick_label_with (gen : Dataset -> M (list nat * list nat))
  (part_gen : Z) (part_file : string) (psize : Q) : M unit :=
  d <- get_ds;;
  tr0 <- (if (part_gen =? 1)%Z then generate gen d part_file else load part_file);;
  assign_train_part d tr0 psize.

Definition pick_label (part_gen : Z) (part_file : string) (train_size : Q)
  (psize : Q) (seed : option Z) : M unit :=
  pick_label_with (fun d => partition_stratified d train_size seed)
    part_gen part_file psize.
End TT.

Module TT_byclass.
Definition pick_label (part_gen : Z) (part_file : string) (train_size : Q)
  (psize : Q) (seed : option Z) : M unit :=
  TT.pick_label_with (fun d => partition_by_class d (label_test (src d)) seed)
    part_gen part_file psize.
End TT_byclass.

(** The split modes, with the arguments of their [pick_label]. *)
Inductive SplitKind : Type :=
| KFold (part_kn part_kp : nat) (vsize : Q)
| TrainValTest (train_size valid_size psize : Q)
| TrainTest (train_size psize : Q)
| TrainTestByClass (train_size psize : Q).

Definition pick_label (k : SplitKind) (part_gen : Z) (part_file : string)
  (seed : option Z) : M unit :=
  match k with
  | KFold kn kp vsize => CrossValidation.pick_label part_gen part_file kn kp vsize seed
  | TrainValTest ts vs ps => TVT.pick_label part_gen part_file ts vs ps seed
  | TrainTest ts ps => TT.pick_label part_gen part_file ts ps seed
  | TrainTestByClass ts ps => TT_byclass.pick_label part_gen part_file ts ps seed
  end.

(** Whether [pick_label] re-draws the training partition after the
    partitions are generated or loaded. *)
Definition decimates (k : SplitKind) : bool :=
  match k with
  | KFold _ _ vsize => Qltb 0 vsize
  | TrainValTest _ _ psize | TrainTest _ psize | TrainTestByClass _ psize =>
      Qltb psize 1
  end.

(* ------------------------------------------------------------------ *)
(** ** Example data *)

(** Twelve samples in three classes of four (raw labels 1, 2, 3); the
    features and coordinates of sample [i] carry [i]. *)
Definition ex_raw_labels : list Z := [1; 1; 1; 1; 2; 2; 2; 2; 3; 3; 3; 3]%Z.

Definition ex_dataset : Dataset :=
  init (fun i v => [Z.of_nat i; Z.of_nat v]) ex_raw_labels
       (fun i => [CNum (Z.of_nat i); CStr "pcd"; CStr "oa11"; CStr "lsoa11"])
       (fun i => Z.of_nat i) (fun i => Z.of_nat i) (fun a b => [a; b])
       "decile" [2%Z].

(** A fresh process: the dataset just constructed, no file written. *)
Definition ex_world (seed : Z) : World :=
  {| wds := ex_dataset; rng := seed; files := [] |}.

Definition world_after (m : M unit) (w : World) : World :=
  match m w with
  | Ok (_, w') => w'
  | Raise _ => w
  end.

(** [Dataset_TT] and [Dataset_TT_byclass] after generating their partitions
    ([train_size = 0.5], [psize = 1.0], [seed = 5]). *)
Definition ex_tt_world : World :=
  world_after (TT.pick_label 1 "part" (1 # 2) 1 (Some 5%Z)) (ex_world 1).

Definition ex_byclass_world : World :=
  world_after (TT_byclass.pick_label 1 "part" (1 # 2) 1 (Some 5%Z)) (ex_world 1).

(** A run of [pick_label] in generation mode with seed 5, and a later run
    that sees the same dataset and the files written by the first one, the
    global generator being in another state. *)
Definition ex_gen_world (k : SplitKind) : World :=
  world_after (pick_label k 1 "part" (Some 5%Z)) (ex_world 1).

Definition ex_load_world (k : SplitKind) : World :=
  {| wds := ex_dataset; rng := 2; files := files (ex_gen_world k) |}.

(** All twelve samples in the train partition: classes 0, 1 and 2 with four
    samples each. *)
Definition ex_full_train_world : World :=
  set_ds (set_train_part (seq 0 12) ex_dataset) (ex_world 1).

(* ------------------------------------------------------------------ *)
(** ** The rest of [Dataset] *)

(** [self.label_counts] of [np.unique(self.labels, return_counts=True)]:
    the number of samples of each label type. *)
Definition label_counts (d : Dataset) : list nat :=
  map (fun t => count_occ Z.eq_dec (labels (src d)) t) (label_types d).

(** [get_train_data], [get_validation_data], [get_test_data]: the data of a
    whole partition. *)
Definition get_train_data : M DataPart :=
  d <- get_ds;; ret (get_data_part d (train_part d)).

Definition get_validation_data : M DataPart :=
  d <- get_ds;; ret (get_data_part d (validation_part d)).

Definition get_test_data : M DataPart :=
  d <- get_ds;; ret (get_data_part d (test_part d)).

(** [np.concatenate] of a list of batches along the sample axis, array by
    array. *)
Definition app_part (a b : DataPart) : DataPart :=
  {| d1 := d1 a ++ d1 b; d2 := d2 a ++ d2 b; d3 := d3 a ++ d3 b;
     d4 := d4 a ++ d4 b; img := img a ++ img b; l := l a ++ l b |}.

Definition empty_part : DataPart :=
  {| d1 := []; d2 := []; d3 := []; d4 := []; img := []; l := [] |}.

Definition concat_parts (ps : list DataPart) : DataPart :=
  fold_right app_part empty_part ps.

(* ------------------------------------------------------------------ *)
(** ** [soften_ordinal_labels] *)

(** numpy's float64 numbers are the kernel's IEEE 754 binary64 floats
    [PrimFloat.float], with their operations [PrimFloat.sub],
    [PrimFloat.div], [PrimFloat.eqb] and [PrimFloat.leb] (round to nearest,
    ties to even). *)

(** The exceptions numpy raises in [soften_ordinal_labels]: an index out of
    bounds, and [np.argmax] of an empty row. *)
Inductive NpErr : Type :=
| NpIndexError
| NpValueError.

(** [np.argmax] of a float64 row, as numpy's loop computes it: the first
    maximum, where the test is [not (x <= best)] and a NaN ends the scan
    ([k] is the position of the head of [xs], [best] and [bv] the best
    position and value so far). *)
Fixpoint argmax_from (k best : nat) (bv : PrimFloat.float) (xs : list PrimFloat.float) : nat :=
  match xs with
  | [] => best
  | x :: t =>
      if negb (PrimFloat.leb x bv) then
        (if PrimFloat.is_nan x then k else argmax_from (S k) k x t)
      else argmax_from (S k) best bv t
  end.

Definition argmax (xs : list PrimFloat.float) : option nat :=
  match xs with
  | [] => None
  | x :: t => Some (if PrimFloat.is_nan x then 0 else argmax_from 1 0 x t)
  end.

(** [row[i] = v] with Python's indexing: [-len <= i < len], negative
    indices counted from the end. *)
Definition set_at {A} (row : list A) (i : Z) (v : A) : list A + NpErr :=
  let n := Z.of_nat (length row) in
  if ((i <? - n) || (n <=? i))%Z then inr NpIndexError
  else
    let k := Z.to_nat (if (i <? 0)%Z then i + n else i)%Z in
    inl (firstn k row ++ v :: skipn (S k) row).

(** [labels_[labels == 1] = 1.0 - m], on one row. *)
Definition soften_ones (m : PrimFloat.float) (row : list PrimFloat.float) : list PrimFloat.float :=
  map (fun x => if PrimFloat.eqb x PrimFloat.one then PrimFloat.sub PrimFloat.one m else x)
      row.

(** The body of the loop [for l in range(labels.shape[0])], for the row
    [lr = labels[l]] and its copy [r_ = labels_[l]]; [C = labels.shape[1]];
    [m / 2.0] is [PrimFloat.div m PrimFloat.two]. *)
Definition soften_row (m : PrimFloat.float) (C : nat) (lr r_ : list PrimFloat.float) : list PrimFloat.float + NpErr :=
  match argmax lr with
  | None => inr NpValueError
  | Some mi =>
      if mi =? 0 then set_at r_ 1 m
      else if mi =? C - 1 then set_at r_ (-2) m
      else match set_at r_ (Z.of_nat mi - 1) (PrimFloat.div m PrimFloat.two) with
           | inl r1 => set_at r1 (Z.of_nat mi + 1) (PrimFloat.div m PrimFloat.two)
           | inr e => inr e
           end
  end.

Fixpoint soften_rows (m : PrimFloat.float) (C : nat) (ls : list (list PrimFloat.float))
  : list (list PrimFloat.float) + NpErr :=
  match ls with
  | [] => inl []
  | lr :: t =>
      match soften_row m C lr (soften_ones m lr) with
      | inr e => inr e
      | inl r =>
          match soften_rows m C t with
          | inl rs => inl (r :: rs)
          | inr e => inr e
          end
      end
  end.

(** [labels.shape[1]] of a 2-d array given by its rows. *)
Definition shape1 {A} (ls : list (list A)) : nat :=
  match ls with
  | [] => 0
  | r :: _ => length r
  end.

(** [soften_ordinal_labels(labels, m)] on a float64 label matrix (the
    dtype of the one-hot labels of [get_data_part]). The closing
    [astype(np.float32)] rounds every entry to the nearest float32:
    [to_f32] is that rounding, taken as a parameter, so that what is proved
    below holds whatever the rounding does. *)
Definition soften_ordinal_labels (to_f32 : PrimFloat.float -> PrimFloat.float) (labels : list (list PrimFloat.float))
  (m : PrimFloat.float) : list (list PrimFloat.float) + NpErr :=
  match soften_rows m (shape1 labels) labels with
  | inl rs => inl (map (map to_f32) rs)
  | inr e => inr e
  end.

(** The one-hot row of class [j] among [C] classes. *)
Definition unit_row (C j : nat) : list PrimFloat.float :=
  map (fun k => if k =? j then PrimFloat.one else PrimFloat.zero) (seq 0 C).

(** Entry [k] of the softened one-hot row of class [j], before the float32
    rounding, by the branches of [soften_ordinal_labels]: [1.0 - m] on the
    class, [m] on the only neighbour of the first and the last class,
    [m / 2.0] on both neighbours of an inner class, [0.0] elsewhere. *)
Definition soft_value (m : PrimFloat.float) (C j k : nat) : PrimFloat.float :=
  if k =? j then PrimFloat.sub PrimFloat.one m
  else if j =? 0 then (if k =? 1 then m else PrimFloat.zero)
  else if j =? C - 1 then (if k =? C - 2 then m else PrimFloat.zero)
  else if (k + 1 =? j) || (k =? j + 1) then PrimFloat.div m PrimFloat.two
  else PrimFloat.zero.

(** ** Properties used in the proofs *)

(** A computation that changes neither the dataset object nor the files. *)
Definition preserves {A} (m : M A) : Prop :=
  forall w a w', m w = Ok (a, w') -> wds w' = wds w /\ files w' = files w.

(** A computation whose success does not depend on the world. *)
Definition succeeds_anywhere {A} (m : M A) : Prop :=
  forall w a w1 w', m w = Ok (a, w1) -> exists a' w1', m w' = Ok (a', w1').

(** Closes an equation between record updates of a [Dataset]. *)
Ltac lens_tac :=
  intros; match goal with d : Dataset |- _ => destruct d; reflexivity end.

(** Case analysis on every natural-number equality test of the goal. *)
Ltac nat_cases :=
  repeat match goal with |- context [?a =? ?b] => destruct (Nat.eqb_spec a b) end;
  simpl; try lia; try reflexivity.

(** What a computation leaves alone: [Rd] relates the dataset objects
    before and after, and files are only added, never removed. *)
Definition keeps {A} (Rd : Dataset -> Dataset -> Prop) (m : M A) : Prop :=
  forall w a w', m w = Ok (a, w') ->
  Rd (wds w) (wds w') /\ exists fs, files w' = fs ++ files w.

(** The data read by [__init__] and the three cursors are unchanged. *)
Definition same_frame (d d' : Dataset) : Prop :=
  src d' = src d /\ batch_ind d' = batch_ind d
  /\ batch_ind_valid d' = batch_ind_valid d /\ batch_ind_test d' = batch_ind_test d.

(* ================================================================== *)
(** * Proofs *)

(** ** Slices *)

Lemma firstn_add {A} (m p : nat) (xs : list A) :
  firstn (m + p) xs = firstn m xs ++ firstn p (skipn m xs).
Proof.
  revert xs; induction m as [|m IH]; intros xs; [reflexivity|].
  destruct xs as [|x xs]; simpl.
  - now rewrite firstn_nil.
  - now rewrite IH.
Qed.

Lemma slice_app (a b c : nat) (xs : list nat) :
  a <= b -> b <= c -> slice a b xs ++ slice b c xs = slice a c xs.
Proof.
  intros Hab Hbc; unfold slice.
  replace (c - a) with ((b - a) + (c - b)) by lia.
  rewrite firstn_add, skipn_skipn.
  now replace (b - a + a) with b by lia.
Qed.

Lemma length_slice (a b : nat) (xs : list nat) :
  length (slice a b xs) = Nat.min (b - a) (length xs - a).
Proof. unfold slice; now rewrite length_firstn, length_skipn. Qed.

Lemma concat_slices (b i j : nat) (xs : list nat) :
  concat (map (fun n => slice (n * b) ((n + 1) * b) xs) (seq i j))
  = slice (i * b) ((i + j) * b) xs.
Proof.
  revert i; induction j as [|j IH]; intros i.
  - simpl; unfold slice; now rewrite Nat.add_0_r, Nat.sub_diag.
  - cbn [seq map concat]; rewrite IH.
    replace (S i * b) with ((i + 1) * b) by lia.
    rewrite slice_app by nia.
    f_equal; lia.
Qed.

Lemma ceil_div_upper (n b : nat) : 1 <= b -> n <= ceil_div n b * b.
Proof.
  intros Hb; unfold ceil_div.
  pose proof (Nat.div_mod (n + b - 1) b ltac:(lia)) as E.
  pose proof (Nat.mod_upper_bound (n + b - 1) b ltac:(lia)) as R.
  nia.
Qed.

Lemma ceil_div_lower (n b : nat) :
  1 <= b -> 0 < n -> (ceil_div n b - 1) * b < n.
Proof.
  intros Hb Hn; unfold ceil_div.
  pose proof (Nat.div_mod (n + b - 1) b ltac:(lia)) as E.
  set (q := (n + b - 1) / b) in *.
  destruct q as [|q]; simpl; nia.
Qed.

Lemma ceil_div_pos (n b : nat) : 1 <= b -> 0 < n -> 0 < ceil_div n b.
Proof.
  intros Hb Hn; pose proof (ceil_div_upper n b Hb); destruct (ceil_div n b); lia.
Qed.

Lemma ceil_div_zero (b : nat) : 1 <= b -> ceil_div 0 b = 0.
Proof. intros Hb; unfold ceil_div; apply Nat.div_small; lia. Qed.

(** The slices of [batch_slices] cover the partition in order, all of them
    full but the last one, which is not empty. *)
Lemma batch_slices_spec (b : nat) (xs : list nat) :
  1 <= b ->
  concat (batch_slices b xs) = xs
  /\ length (batch_slices b xs) = ceil_div (length xs) b
  /\ Forall (fun s => length s = b) (removelast (batch_slices b xs))
  /\ (xs <> [] -> 0 < length (last (batch_slices b xs) []) <= b).
Proof.
  intros Hb; unfold batch_slices.
  set (q := ceil_div (length xs) b).
  assert (Hup : length xs <= q * b) by apply ceil_div_upper, Hb.
  split; [|split; [|split]].
  - rewrite concat_slices; simpl; unfold slice.
    rewrite Nat.sub_0_r; apply firstn_all2; lia.
  - now rewrite length_map, length_seq.
  - destruct xs as [|x xs'] eqn:Exs.
    + subst q; simpl; rewrite ceil_div_zero by exact Hb; constructor.
    + assert (Hlo : (q - 1) * b < length xs)
        by (subst q; rewrite Exs; apply ceil_div_lower; simpl; lia).
      rewrite <- Exs in *.
      assert (Hq : 0 < q) by (subst q; apply ceil_div_pos; rewrite ?Exs; simpl; lia).
      replace q with (S (q - 1)) by lia.
      rewrite seq_S, map_app; simpl; rewrite removelast_last.
      apply Forall_forall; intros s Hs; apply in_map_iff in Hs.
      destruct Hs as [n [<- Hn]]; apply in_seq in Hn.
      rewrite length_slice.
      assert ((n + 1) * b <= (q - 1) * b) by nia.
      replace ((n + 1) * b - n * b) with b by nia; lia.
  - intros Hne.
    assert (Hlen : 0 < length xs) by (destruct xs; [contradiction|simpl; lia]).
    assert (Hlo : (q - 1) * b < length xs) by (apply ceil_div_lower; lia).
    assert (Hq : 0 < q) by (apply ceil_div_pos; lia).
    replace q with (S (q - 1)) by lia.
    rewrite seq_S, map_app; simpl; rewrite last_last, length_slice.
    replace ((q - 1 + 1) * b - (q - 1) * b) with b by nia.
    replace (q - 1 + 1) with q by lia.
    nia.
Qed.

(** ** Python's [sorted] *)

Lemma insert_perm (x : nat) (xs : list nat) : Permutation (insert x xs) (x :: xs).
Proof.
  induction xs as [|y xs IH]; simpl; [reflexivity|].
  destruct (x <=? y); [reflexivity|].
  rewrite IH; apply perm_swap.
Qed.

Lemma sorted_perm (xs : list nat) : Permutation (sorted xs) xs.
Proof.
  induction xs as [|x xs IH]; simpl; [reflexivity|].
  now rewrite insert_perm, IH.
Qed.

Lemma insert_ssorted (x : nat) (xs : list nat) :
  StronglySorted le xs -> StronglySorted le (insert x xs).
Proof.
  induction xs as [|y xs IH]; intros H; simpl.
  - repeat constructor.
  - apply StronglySorted_inv in H as [Hs Hf].
    destruct (x <=? y) eqn:E.
    + apply Nat.leb_le in E.
      constructor; [now constructor|].
      constructor; [exact E|].
      rewrite Forall_forall in *; intros z Hz; specialize (Hf z Hz); lia.
    + apply Nat.leb_gt in E.
      constructor; [now apply IH|].
      rewrite Forall_forall in *; intros z Hz.
      apply (Permutation_in _ (insert_perm x xs)) in Hz.
      destruct Hz as [<-|Hz]; [lia|now apply Hf].
Qed.

Lemma sorted_sorted (xs : list nat) : Sorted le (sorted xs).
Proof.
  apply StronglySorted_Sorted.
  induction xs as [|x xs IH]; simpl; [constructor|].
  now apply insert_ssorted.
Qed.

Lemma sorted_of_sorted (xs : list nat) : StronglySorted lt xs -> sorted xs = xs.
Proof.
  induction xs as [|x xs IH]; intros H; simpl; [reflexivity|].
  apply StronglySorted_inv in H as [Hs Hf].
  rewrite IH by exact Hs.
  destruct xs as [|y ys]; simpl; [reflexivity|].
  inversion Hf; subst.
  now replace (x <=? y) with true by (symmetry; apply Nat.leb_le; lia).
Qed.

(** [get_data_part] reads only the immutable source data. *)
Lemma get_data_part_src (d d' : Dataset) (rows : list nat) :
  src d = src d' -> get_data_part d rows = get_data_part d' rows.
Proof.
  intros E; unfold get_data_part, onehot, label_types, label_at; now rewrite E.
Qed.

Lemma set_ds_set_ds (d d' : Dataset) (w : World) :
  set_ds d (set_ds d' w) = set_ds d w.
Proof. reflexivity. Qed.

Lemma set_ds_wds (w : World) : set_ds (wds w) w = w.
Proof. now destruct w. Qed.

(** ** The three sequential getters, generically *)

(** A sequential batch getter is determined by its partition, its cursor
    and the setter of that cursor. *)
Section Cursor.
Variable part : Dataset -> list nat.
Variable cur : Dataset -> nat.
Variable setc : nat -> Dataset -> Dataset.
Hypothesis part_setc : forall n d, part (setc n d) = part d.
Hypothesis cur_setc : forall n d, cur (setc n d) = n.
Hypothesis setc_setc : forall n m d, setc n (setc m d) = setc n d.
Hypothesis setc_cur : forall d, setc (cur d) d = d.
Hypothesis src_setc : forall n d, src (setc n d) = src d.

Lemma seq_batch_step (b : nat) (w : World) :
  seq_batch part cur setc b w
  = Ok (get_data_part (wds w) (slice (cur (wds w)) (cur (wds w) + b) (part (wds w))),
        set_ds (setc (if length (part (wds w)) <=? cur (wds w) + b then 0
                      else cur (wds w) + b) (wds w)) w).
Proof. reflexivity. Qed.

Lemma seq_batch_run (b j i : nat) (w : World) :
  1 <= b -> 1 <= j -> cur (wds w) = i * b ->
  i + j = ceil_div (length (part (wds w))) b ->
  repeat_call j (seq_batch part cur setc b) w
  = Ok (map (get_data_part (wds w))
            (map (fun n => slice (n * b) ((n + 1) * b) (part (wds w))) (seq i j)),
        set_ds (setc 0 (wds w)) w).
Proof.
  revert i w; induction j as [|j IH]; intros i w Hb Hj Hcur Hq; [lia|].
  set (d := wds w) in *.
  assert (Hlen : 0 < length (part d)).
  { destruct (length (part d)) eqn:E; [|lia].
    rewrite ceil_div_zero in Hq by exact Hb; lia. }
  pose proof (ceil_div_upper (length (part d)) b Hb) as Hup.
  pose proof (ceil_div_lower (length (part d)) b Hb Hlen) as Hlo.
  cbn [repeat_call]; unfold bind at 1; rewrite seq_batch_step; fold d.
  rewrite Hcur.
  destruct j as [|j].
  - replace (length (part d) <=? i * b + b) with true
      by (symmetry; apply Nat.leb_le; nia).
    cbn [repeat_call seq map]; unfold bind, ret.
    now replace (i * b + b) with ((i + 1) * b) by lia.
  - replace (length (part d) <=? i * b + b) with false
      by (symmetry; apply Nat.leb_gt; nia).
    unfold bind at 1.
    rewrite (IH (S i)); [ | lia | lia | cbn [wds set_ds]; rewrite cur_setc; nia
                        | cbn [wds set_ds]; rewrite part_setc; fold d; lia].
    cbn [wds set_ds]; rewrite part_setc, setc_setc, set_ds_set_ds.
    rewrite (map_ext (get_data_part (setc (i * b + b) d)) (get_data_part d))
      by (intros; apply get_data_part_src, src_setc).
    unfold ret; replace (i * b + b) with ((i + 1) * b) by lia.
    reflexivity.
Qed.

(** One epoch: [ceil(|part| / b)] calls from cursor 0. *)
Lemma seq_batch_epoch (b : nat) (w : World) :
  1 <= b -> part (wds w) <> [] -> cur (wds w) = 0 ->
  repeat_call (ceil_div (length (part (wds w))) b) (seq_batch part cur setc b) w
  = Ok (map (get_data_part (wds w)) (batch_slices b (part (wds w))), w).
Proof.
  intros Hb Hne H0.
  assert (Hlen : 0 < length (part (wds w))) by (destruct (part (wds w)); [contradiction|simpl; lia]).
  rewrite (seq_batch_run b _ 0); [ | exact Hb | apply ceil_div_pos; lia | lia | lia].
  assert (E : setc 0 (wds w) = wds w) by (rewrite <- H0; apply setc_cur).
  rewrite E, set_ds_wds; reflexivity.
Qed.

(** One call moves only this cursor, and keeps it inside a non-empty
    partition. *)
Lemma seq_batch_cursor (b : nat) (w : World) :
  exists out c, seq_batch part cur setc b w = Ok (out, set_ds (setc c (wds w)) w)
                /\ (part (wds w) <> [] -> c < length (part (wds w))).
Proof.
  rewrite seq_batch_step; eexists _, _; split; [reflexivity|].
  intros Hne; destruct (length (part (wds w)) <=? cur (wds w) + b) eqn:E.
  - destruct (part (wds w)); [contradiction|simpl; lia].
  - now apply Nat.leb_gt in E.
Qed.
End Cursor.

Lemma get_train_batch_seq (b : nat) :
  get_train_batch b = seq_batch train_part batch_ind set_batch_ind b.
Proof. reflexivity. Qed.

Lemma get_validation_batch_seq (b : nat) :
  get_validation_batch b = seq_batch validation_part batch_ind_valid set_batch_ind_valid b.
Proof. reflexivity. Qed.

Lemma get_test_batch_seq (b : nat) :
  get_test_batch b = seq_batch test_part batch_ind_test set_batch_ind_test b.
Proof. reflexivity. Qed.

Lemma concat_sorted_perm (ss : list (list nat)) :
  Permutation (concat (map sorted ss)) (concat ss).
Proof.
  induction ss as [|s ss IH]; simpl; [reflexivity|].
  apply Permutation_app; [apply sorted_perm | exact IH].
Qed.

Lemma test_iterator_eq (b : nat) (w : World) :
  1 <= b ->
  test_iterator b w
  = Ok (map (fun rows => (get_data_part (wds w) rows, map (vmap (src (wds w))) (sorted rows)))
            (batch_slices b (test_part (wds w))), w).
Proof.
  intros Hb; unfold test_iterator, bind, get_ds.
  now replace (b =? 0) with false by (symmetry; apply Nat.eqb_neq; lia).
Qed.

Lemma validation_iterator_eq (b : nat) (w : World) :
  1 <= b ->
  validation_iterator b w
  = Ok (map (get_data_part (wds w)) (batch_slices b (validation_part (wds w))), w).
Proof.
  intros Hb; unfold validation_iterator, bind, get_ds.
  now replace (b =? 0) with false by (symmetry; apply Nat.eqb_neq; lia).
Qed.

(* ================================================================== *)
(** * The claims *)

(** ** C1 *)

(** C1: starting from cursor 0 on a non-empty partition, [ceil(n / b)]
    consecutive calls of [get_train_batch b] (resp. [get_test_batch b])
    return the batches of the consecutive slices of the partition: their
    concatenation is the partition, each sample fetched once, all slices
    full but the last (non-empty, at most [b]); the world is back to its
    initial state, so the next call returns the first [b] samples again. *)
Theorem sequential_batches_epoch (w : World) (batch_size : nat) :
  1 <= batch_size ->
  (train_part (wds w) <> [] -> batch_ind (wds w) = 0 ->
   let slices := batch_slices batch_size (train_part (wds w)) in
   repeat_call (ceil_div (length (train_part (wds w))) batch_size)
     (get_train_batch batch_size) w
   = Ok (map (get_data_part (wds w)) slices, w)
   /\ concat slices = train_part (wds w)
   /\ Permutation (concat (map sorted slices)) (train_part (wds w))
   /\ Forall (fun s => length s = batch_size) (removelast slices)
   /\ 0 < length (last slices []) <= batch_size
   /\ exists w', get_train_batch batch_size w
                 = Ok (get_data_part (wds w) (firstn batch_size (train_part (wds w))), w'))
  /\
  (test_part (wds w) <> [] -> batch_ind_test (wds w) = 0 ->
   let slices := batch_slices batch_size (test_part (wds w)) in
   repeat_call (ceil_div (length (test_part (wds w))) batch_size)
     (get_test_batch batch_size) w
   = Ok (map (get_data_part (wds w)) slices, w)
   /\ concat slices = test_part (wds w)
   /\ Permutation (concat (map sorted slices)) (test_part (wds w))
   /\ Forall (fun s => length s = batch_size) (removelast slices)
   /\ 0 < length (last slices []) <= batch_size
   /\ exists w', get_test_batch batch_size w
                 = Ok (get_data_part (wds w) (firstn batch_size (test_part (wds w))), w')).
Proof.
  intros Hb; split; intros Hne H0 slices.
  - destruct (batch_slices_spec batch_size (train_part (wds w)) Hb)
      as (Hc & _ & Hf & Hl).
    repeat split; try exact Hc; try exact Hf; try (now apply Hl).
    + rewrite get_train_batch_seq; apply seq_batch_epoch; try lens_tac; assumption.
    + rewrite <- Hc; apply concat_sorted_perm.
    + rewrite get_train_batch_seq, seq_batch_step; eexists.
      rewrite H0; unfold slice; rewrite Nat.add_0_l, Nat.sub_0_r; reflexivity.
  - destruct (batch_slices_spec batch_size (test_part (wds w)) Hb)
      as (Hc & _ & Hf & Hl).
    repeat split; try exact Hc; try exact Hf; try (now apply Hl).
    + rewrite get_test_batch_seq; apply seq_batch_epoch; try lens_tac; assumption.
    + rewrite <- Hc; apply concat_sorted_perm.
    + rewrite get_test_batch_seq, seq_batch_step; eexists.
      rewrite H0; unfold slice; rewrite Nat.add_0_l, Nat.sub_0_r; reflexivity.
Qed.

(** ** C6 *)

(** C6: for [batch_num >= 1], [test_iterator] and [validation_iterator]
    yield one value per slice of [batch_slices]: [ceil(n / batch_num)]
    slices covering the partition in order, all full but the last; the call
    changes nothing, and its result depends only on the data and the
    partition, not on the cursors, the random state or earlier calls. *)
Theorem iterators_full_pass (w : World) (batch_num : nat) :
  1 <= batch_num ->
  let d := wds w in
  let ts := batch_slices batch_num (test_part d) in
  let vs := batch_slices batch_num (validation_part d) in
  test_iterator batch_num w
  = Ok (map (fun rows => (get_data_part d rows, map (vmap (src d)) (sorted rows))) ts, w)
  /\ validation_iterator batch_num w = Ok (map (get_data_part d) vs, w)
  /\ concat ts = test_part d /\ length ts = ceil_div (length (test_part d)) batch_num
  /\ Forall (fun s => length s = batch_num) (removelast ts)
  /\ (test_part d <> [] -> 0 < length (last ts []) <= batch_num)
  /\ concat vs = validation_part d
  /\ length vs = ceil_div (length (validation_part d)) batch_num
  /\ Forall (fun s => length s = batch_num) (removelast vs)
  /\ (validation_part d <> [] -> 0 < length (last vs []) <= batch_num)
  /\ (forall w', src (wds w') = src d -> test_part (wds w') = test_part d ->
        validation_part (wds w') = validation_part d ->
        test_iterator batch_num w'
        = Ok (map (fun rows => (get_data_part d rows, map (vmap (src d)) (sorted rows))) ts, w')
        /\ validation_iterator batch_num w' = Ok (map (get_data_part d) vs, w')).
Proof.
  intros Hb d ts vs.
  destruct (batch_slices_spec batch_num (test_part d) Hb) as (Tc & Tl & Tf & Tn).
  destruct (batch_slices_spec batch_num (validation_part d) Hb) as (Vc & Vl & Vf & Vn).
  split; [now apply test_iterator_eq|].
  split; [now apply validation_iterator_eq|].
  do 8 (split; [first [assumption | now apply Tn | now apply Vn]|]).
  intros w' Hs Ht Hv; split.
  - rewrite test_iterator_eq by exact Hb; rewrite Ht, Hs.
    do 2 f_equal; apply map_ext; intros rows.
    now rewrite (get_data_part_src (wds w') d rows Hs).
  - rewrite validation_iterator_eq by exact Hb; rewrite Hv.
    do 2 f_equal; apply map_ext; intros rows.
    now apply get_data_part_src.
Qed.

(** ** C9 *)

(** C9: [__init__] sets the three cursors to 0; each sequential getter
    changes only its own cursor (nothing else of the world), and leaves it
    below the length of its partition when that partition is not empty. *)
Theorem cursor_invariant :
  (forall codes0 raw vmap0 lat lng patch name ltest,
     let d := init codes0 raw vmap0 lat lng patch name ltest in
     batch_ind d = 0 /\ batch_ind_valid d = 0 /\ batch_ind_test d = 0)
  /\ (forall (w : World) (batch_size : nat),
        exists out c,
          get_train_batch batch_size w = Ok (out, set_ds (set_batch_ind c (wds w)) w)
          /\ (train_part (wds w) <> [] -> c < length (train_part (wds w))))
  /\ (forall (w : World) (batch_size : nat),
        exists out c,
          get_validation_batch batch_size w
          = Ok (out, set_ds (set_batch_ind_valid c (wds w)) w)
          /\ (validation_part (wds w) <> [] -> c < length (validation_part (wds w))))
  /\ (forall (w : World) (batch_size : nat),
        exists out c,
          get_test_batch batch_size w = Ok (out, set_ds (set_batch_ind_test c (wds w)) w)
          /\ (test_part (wds w) <> [] -> c < length (test_part (wds w)))).
Proof.
  split; [|split; [|split]].
  - intros; repeat split.
  - intros w b; rewrite get_train_batch_seq; apply seq_batch_cursor.
  - intros w b; rewrite get_validation_batch_seq; apply seq_batch_cursor.
  - intros w b; rewrite get_test_batch_seq; apply seq_batch_cursor.
Qed.

(** ** Balanced batches *)

Lemma insert_uniq_in (x y : Z) (xs : list Z) :
  In y (insert_uniq x xs) -> y = x \/ In y xs.
Proof.
  induction xs as [|z xs IH]; simpl; [intuition|].
  destruct (x <? z)%Z; [simpl; intuition|].
  destruct (x =? z)%Z; [simpl; intuition|].
  simpl; intros [->|H]; [now right; left|].
  destruct (IH H); [now left | now right; right].
Qed.

Lemma insert_uniq_ssorted (x : Z) (xs : list Z) :
  StronglySorted Z.lt xs -> StronglySorted Z.lt (insert_uniq x xs).
Proof.
  induction xs as [|z xs IH]; intros H; simpl; [repeat constructor|].
  apply StronglySorted_inv in H as [Hs Hf].
  destruct (x <? z)%Z eqn:E1; [|destruct (x =? z)%Z eqn:E2].
  - apply Z.ltb_lt in E1.
    constructor; [now constructor|].
    constructor; [exact E1|].
    rewrite Forall_forall in *; intros u Hu; specialize (Hf u Hu); lia.
  - now constructor.
  - apply Z.ltb_ge in E1; apply Z.eqb_neq in E2.
    constructor; [now apply IH|].
    rewrite Forall_forall in *; intros u Hu.
    destruct (insert_uniq_in x u xs Hu) as [->|Hu']; [lia|now apply Hf].
Qed.

Lemma ssorted_lt_nodup (xs : list Z) : StronglySorted Z.lt xs -> NoDup xs.
Proof.
  induction xs as [|x xs IH]; intros H; [constructor|].
  apply StronglySorted_inv in H as [Hs Hf].
  constructor; [|now apply IH].
  intros Hin; rewrite Forall_forall in Hf; specialize (Hf x Hin); lia.
Qed.

Lemma label_types_nodup (d : Dataset) : NoDup (label_types d).
Proof.
  apply ssorted_lt_nodup; unfold label_types, unique.
  induction (labels (src d)) as [|x xs IH]; simpl; [constructor|].
  now apply insert_uniq_ssorted.
Qed.

Lemma remove_nth_perm (k : nat) (xs : list nat) :
  k < length xs -> Permutation xs (nth k xs 0 :: remove_nth k xs).
Proof.
  revert k; induction xs as [|x xs IH]; intros k Hk; simpl in Hk; [lia|].
  destruct k as [|k]; simpl; [reflexivity|].
  rewrite (IH k) at 1 by lia; apply perm_swap.
Qed.

Lemma length_remove_nth (k : nat) (xs : list nat) :
  k < length xs -> length (remove_nth k xs) = length xs - 1.
Proof.
  intros Hk; pose proof (Permutation_length (remove_nth_perm k xs Hk)) as E.
  simpl in E; lia.
Qed.

Lemma permute_fuel_perm (f : nat) (r : Z) (xs : list nat) :
  length xs <= f -> Permutation (fst (permute_fuel f r xs)) xs.
Proof.
  revert r xs; induction f as [|f IH]; intros r xs Hf.
  - destruct xs; simpl in *; [constructor|lia].
  - destruct xs as [|x xs'] eqn:Exs; [simpl; constructor|].
    rewrite <- Exs in Hf |- *; cbn [permute_fuel]; rewrite Exs; rewrite <- Exs.
    set (k := Z.to_nat (r mod Z.of_nat (length xs))).
    assert (Hk : k < length xs).
    { subst k. assert (0 < length xs) by (rewrite Exs; simpl; lia).
      pose proof (Z.mod_pos_bound r (Z.of_nat (length xs)) ltac:(lia)); lia. }
    destruct (permute_fuel f (next_state r) (remove_nth k xs)) as [ys r'] eqn:E.
    simpl.
    pose proof (IH (next_state r) (remove_nth k xs)) as H.
    rewrite E in H; simpl in H.
    rewrite H by (rewrite length_remove_nth by exact Hk; lia).
    symmetry; now apply remove_nth_perm.
Qed.

Lemma permutation_perm (r : Z) (xs : list nat) :
  Permutation (fst (permutation r xs)) xs.
Proof. apply permute_fuel_perm; lia. Qed.

Lemma where_eq_spec (d : Dataset) (lab : Z) (j0 : nat) (part : list nat) (j : nat) :
  In j (where_eq d lab j0 part) ->
  j0 <= j /\ j - j0 < length part /\ label_at d (nth (j - j0) part 0) = lab.
Proof.
  revert j0; induction part as [|i part IH]; intros j0 Hin; simpl in Hin; [contradiction|].
  destruct (label_at d i =? lab)%Z eqn:E.
  - destruct Hin as [<-|Hin].
    + rewrite Nat.sub_diag; simpl; split; [lia|split; [lia|now apply Z.eqb_eq]].
    + destruct (IH (S j0) Hin) as (H1 & H2 & H3).
      replace (j - j0) with (S (j - S j0)) by lia; simpl; split; [lia|split; [lia|exact H3]].
  - destruct (IH (S j0) Hin) as (H1 & H2 & H3).
    replace (j - j0) with (S (j - S j0)) by lia; simpl; split; [lia|split; [lia|exact H3]].
Qed.

Lemma where_eq_length (d : Dataset) (lab : Z) (j0 : nat) (part : list nat) :
  length (where_eq d lab j0 part) = length (class_members d lab part).
Proof.
  revert j0; induction part as [|i part IH]; intros j0; simpl; [reflexivity|].
  destruct (label_at d i =? lab)%Z; simpl; now rewrite IH.
Qed.

Lemma class_members_app (d : Dataset) (lab : Z) (xs ys : list nat) :
  class_members d lab (xs ++ ys) = class_members d lab xs ++ class_members d lab ys.
Proof. apply filter_app. Qed.

Lemma in_firstn {A} (n : nat) (xs : list A) (x : A) : In x (firstn n xs) -> In x xs.
Proof.
  intros H; rewrite <- (firstn_skipn n xs); apply in_or_app; now left.
Qed.

(** The rows drawn for one class. *)
Lemma class_chunk (d : Dataset) (part : list nat) (lab : Z) (lb : nat) (r : Z) :
  let c := map (fun j => nth j part 0)
               (firstn lb (fst (permutation r (where_eq d lab 0 part)))) in
  incl c part /\ Forall (fun i => label_at d i = lab) c
  /\ (lb <= length (class_members d lab part) -> length c = lb).
Proof.
  intros c.
  pose proof (permutation_perm r (where_eq d lab 0 part)) as HP.
  assert (Hin : forall j, In j (firstn lb (fst (permutation r (where_eq d lab 0 part)))) ->
                  j < length part /\ label_at d (nth j part 0) = lab).
  { intros j Hj; apply in_firstn in Hj.
    apply (Permutation_in _ HP), where_eq_spec in Hj.
    rewrite Nat.sub_0_r in Hj; tauto. }
  split; [|split].
  - intros i Hi; subst c; apply in_map_iff in Hi as [j [<- Hj]].
    apply nth_In, Hin, Hj.
  - apply Forall_forall; intros i Hi; subst c; apply in_map_iff in Hi as [j [<- Hj]].
    apply Hin, Hj.
  - intros Hlb; subst c; rewrite length_map, length_firstn.
    rewrite (Permutation_length HP), where_eq_length; lia.
Qed.

Lemma class_members_all (d : Dataset) (lab : Z) (c : list nat) :
  Forall (fun i => label_at d i = lab) c -> class_members d lab c = c.
Proof.
  induction c as [|i c IH]; intros H; [reflexivity|].
  inversion H; subst; unfold class_members in *; simpl.
  rewrite Z.eqb_refl; f_equal; now apply IH.
Qed.

Lemma class_members_none (d : Dataset) (lab : Z) (c : list nat) :
  Forall (fun i => label_at d i <> lab) c -> class_members d lab c = [].
Proof.
  induction c as [|i c IH]; intros H; [reflexivity|].
  inversion H; subst; unfold class_members in *; simpl.
  replace (label_at d i =? lab)%Z with false by (symmetry; now apply Z.eqb_neq).
  now apply IH.
Qed.

Lemma balanced_rows_spec (d : Dataset) (part : list nat) (lb : nat) (types : list Z)
  (r : Z) :
  NoDup types ->
  (forall lab, In lab types -> lb <= length (class_members d lab part)) ->
  let rows := fst (balanced_rows d part lb types r) in
  incl rows part /\ Forall (fun i => In (label_at d i) types) rows
  /\ (forall lab, In lab types -> length (class_members d lab rows) = lb)
  /\ length rows = length types * lb.
Proof.
  revert r; induction types as [|lab ts IH]; intros r Hnd Henough rows.
  - subst rows; simpl; repeat split; [intros x [] | constructor | intros _ [] ].
  - inversion Hnd as [|? ? Hnotin Hnd']; subst.
    subst rows; cbn [balanced_rows].
    destruct (permutation r (where_eq d lab 0 part)) as [p r1] eqn:Ep.
    destruct (balanced_rows d part lb ts r1) as [rest r2] eqn:Eb.
    cbn [fst].
    pose proof (class_chunk d part lab lb r) as (Ci & Cf & Cl); rewrite Ep in Ci, Cf, Cl;
      cbn [fst] in Ci, Cf, Cl.
    assert (Hts : forall l, In l ts -> lb <= length (class_members d l part))
      by (intros; apply Henough; now right).
    pose proof (IH r1 Hnd' Hts) as (Ri & Rf & Rc & Rl); rewrite Eb in Ri, Rf, Rc, Rl;
      cbn [fst] in Ri, Rf, Rc, Rl.
    set (c := map (fun j => nth j part 0) (firstn lb p)) in *.
    split; [|split; [|split]].
    + intros x Hx; apply in_app_or in Hx as [Hx|Hx]; [now apply Ci | now apply Ri].
    + apply Forall_app; split.
      * refine (Forall_impl _ _ Cf); intros i Hi; rewrite Hi; now left.
      * refine (Forall_impl _ _ Rf); intros i Hi; now right.
    + intros lab0 Hlab0; rewrite class_members_app, length_app.
      destruct (Z.eq_dec lab0 lab) as [->|Hne].
      * rewrite class_members_all by exact Cf.
        rewrite (class_members_none d lab rest); [simpl; rewrite Cl; [lia|apply Henough; now left]|].
        refine (Forall_impl _ _ Rf); intros i Hi E; rewrite E in Hi; contradiction.
      * rewrite class_members_none; [simpl; rewrite Rc; [reflexivity|]|].
        -- destruct Hlab0 as [E|H]; [congruence|exact H].
        -- refine (Forall_impl _ _ Cf); intros i Hi E; congruence.
    + rewrite length_app, Rl, Cl by (apply Henough; now left); simpl; lia.
Qed.

Lemma get_balanced_train_batch_eq (b : nat) (w : World) :
  0 < num_labels (wds w) ->
  get_balanced_train_batch b w
  = let '(rows, r') := balanced_rows (wds w) (train_part (wds w))
                         (b / num_labels (wds w)) (label_types (wds w)) (rng w) in
    Ok (get_data_part (wds w) rows, {| wds := wds w; rng := r'; files := files w |}).
Proof.
  intros Hpos; unfold get_balanced_train_batch, bind, get_ds, get_rng.
  unfold num_labels in *.
  replace (length (label_types (wds w)) =? 0) with false by (symmetry; apply Nat.eqb_neq; lia).
  now destruct (balanced_rows _ _ _ _ _).
Qed.

Lemma perm_class_members (d : Dataset) (lab : Z) (xs ys : list nat) :
  Permutation xs ys -> Permutation (class_members d lab xs) (class_members d lab ys).
Proof.
  unfold class_members; induction 1 as [| x xs ys _ IH | x y xs | xs ys zs _ IH1 _ IH2];
    simpl; try constructor.
  - destruct (label_at d x =? lab)%Z; [constructor|]; exact IH.
  - destruct (label_at d x =? lab)%Z, (label_at d y =? lab)%Z;
      try constructor; reflexivity.
  - now rewrite IH1, IH2.
Qed.

(** ** C5 *)

(** C5: when every class has at least [batch_size // num_labels] samples in
    the train partition, [get_balanced_train_batch batch_size] returns the
    data of rows drawn from the train partition with exactly
    [batch_size // num_labels] samples of each class, whatever the random
    draw; the fetched (sorted) rows have the same per-class counts. *)
Theorem balanced_train_batch_per_class (w : World) (batch_size : nat) :
  0 < num_labels (wds w) ->
  (forall lab, In lab (label_types (wds w)) ->
     batch_size / num_labels (wds w)
     <= length (class_members (wds w) lab (train_part (wds w)))) ->
  exists rows w',
    get_balanced_train_batch batch_size w = Ok (get_data_part (wds w) rows, w')
    /\ incl rows (train_part (wds w))
    /\ (forall lab, In lab (label_types (wds w)) ->
          length (class_members (wds w) lab rows) = batch_size / num_labels (wds w)
          /\ length (class_members (wds w) lab (sorted rows))
             = batch_size / num_labels (wds w))
    /\ length rows = num_labels (wds w) * (batch_size / num_labels (wds w)).
Proof.
  intros Hpos Henough.
  rewrite get_balanced_train_batch_eq by exact Hpos.
  pose proof (balanced_rows_spec (wds w) (train_part (wds w)) (batch_size / num_labels (wds w))
                (label_types (wds w)) (rng w) (label_types_nodup (wds w)) Henough)
    as (Hi & _ & Hc & Hl).
  destruct (balanced_rows _ _ _ _ _) as [rows r'] eqn:E; cbn [fst] in Hi, Hc, Hl.
  exists rows, {| wds := wds w; rng := r'; files := files w |}.
  split; [reflexivity|split; [exact Hi|split]].
  - intros lab Hlab; split; [now apply Hc|].
    rewrite (Permutation_length (perm_class_members _ lab _ _ (sorted_perm rows))).
    now apply Hc.
  - exact Hl.
Qed.

(** ** C10 *)

(** C10: the balanced getters only advance the random generator: the
    dataset object (cursors and partitions included) and the files are
    unchanged. *)
Theorem balanced_batches_frame (w : World) (batch_size : nat) :
  match get_balanced_train_batch batch_size w with
  | Ok (_, w') => wds w' = wds w /\ files w' = files w
  | Raise _ => True
  end
  /\ match get_balanced_validation_batch batch_size w with
     | Ok (_, w') => wds w' = wds w /\ files w' = files w
     | Raise _ => True
     end.
Proof.
  unfold get_balanced_train_batch, get_balanced_validation_batch, bind, get_ds, get_rng.
  split; (destruct (length (label_types (wds w)) =? 0); [exact I|]);
    match goal with |- context [balanced_rows ?a ?b ?c ?e ?f] =>
      destruct (balanced_rows a b c e f) end; split; reflexivity.
Qed.

(** ** C2 *)

Lemma get_data_part_fetch (d : Dataset) (rows : list nat) :
  get_data_part d rows = fetch_in_request_order d (sorted rows).
Proof. reflexivity. Qed.

Lemma ssorted_nodup (xs : list nat) : StronglySorted lt xs -> NoDup xs.
Proof.
  induction xs as [|x xs IH]; intros H; [constructor|].
  apply StronglySorted_inv in H as [Hs Hf]; constructor; [|now apply IH].
  intros Hin; rewrite Forall_forall in Hf; specialize (Hf x Hin); lia.
Qed.

Lemma ssorted_le_nodup (xs : list nat) :
  StronglySorted le xs -> NoDup xs -> StronglySorted lt xs.
Proof.
  induction xs as [|x t IH]; intros Hs Hn; [constructor|].
  apply StronglySorted_inv in Hs as [Hs Hf]; inversion Hn as [|? ? Hx Hn']; subst.
  constructor; [now apply IH|].
  rewrite Forall_forall in *; intros y Hy; specialize (Hf y Hy).
  destruct (Nat.eq_dec x y) as [->|]; [contradiction|lia].
Qed.

Lemma sorted_ssorted (xs : list nat) : StronglySorted le (sorted xs).
Proof. induction xs as [|x xs IH]; simpl; [constructor|now apply insert_ssorted]. Qed.

Lemma increasing_sorted (xs : list nat) : increasing xs = true <-> Sorted lt xs.
Proof.
  induction xs as [|x [|y t] IH].
  - split; intros; [constructor|reflexivity].
  - split; intros; [repeat constructor|reflexivity].
  - change (increasing (x :: y :: t)) with ((x <? y) && increasing (y :: t)).
    rewrite andb_true_iff, Nat.ltb_lt, IH; split.
    + intros [Hxy Hs]; constructor; [exact Hs|constructor; exact Hxy].
    + intros Hs; inversion Hs as [|? ? Hs' Hhd]; subst.
      inversion Hhd; subst; split; assumption.
Qed.

(** The sorted indices are strictly increasing exactly when no index is
    repeated. *)
Lemma increasing_sorted_nodup (rows : list nat) :
  increasing (sorted rows) = true <-> NoDup rows.
Proof.
  rewrite increasing_sorted; split; intros H.
  - apply (Permutation_NoDup (sorted_perm rows)), ssorted_nodup.
    apply Sorted_StronglySorted; [exact Nat.lt_trans|exact H].
  - apply StronglySorted_Sorted, ssorted_le_nodup; [apply sorted_ssorted|].
    apply (Permutation_NoDup (Permutation_sym (sorted_perm rows))), H.
Qed.

Lemma existsb_sorted_out (n : nat) (rows : list nat) :
  existsb (fun i => n <=? i) (sorted rows) = true <-> Exists (fun i => n <= i) rows.
Proof.
  rewrite existsb_exists, Exists_exists; split; intros (i & Hi & Hn); exists i; split.
  - apply (Permutation_in _ (sorted_perm rows)), Hi.
  - now apply Nat.leb_le.
  - apply (Permutation_in _ (Permutation_sym (sorted_perm rows))), Hi.
  - now apply Nat.leb_le.
Qed.

(** The h5py read succeeds exactly on distinct indices inside the data. *)
Lemma fetch_error_none (n : nat) (rows : list nat) :
  fetch_error n (sorted rows) = None <-> Forall (fun i => i < n) rows /\ NoDup rows.
Proof.
  unfold fetch_error.
  destruct (existsb (fun i => n <=? i) (sorted rows)) eqn:E1.
  - split; [discriminate|]; intros [Hf _].
    apply existsb_sorted_out, Exists_exists in E1 as (i & Hi & Hn).
    rewrite Forall_forall in Hf; specialize (Hf i Hi); lia.
  - destruct (increasing (sorted rows)) eqn:E2.
    + split; [intros _|reflexivity]; split; [|now apply increasing_sorted_nodup].
      apply Forall_forall; intros i Hi; destruct (Nat.ltb_spec i n) as [|Hn]; [assumption|].
      enough (existsb (fun i => n <=? i) (sorted rows) = true) by congruence.
      apply existsb_sorted_out, Exists_exists; now exists i.
    + split; [discriminate|]; intros [_ Hn]; apply increasing_sorted_nodup in Hn; congruence.
Qed.

Lemma fetch_error_out (n : nat) (rows : list nat) :
  Exists (fun i => n <= i) rows -> fetch_error n (sorted rows) = Some IndexError.
Proof. intros H; unfold fetch_error; now rewrite (proj2 (existsb_sorted_out n rows) H). Qed.

Lemma fetch_error_dup (n : nat) (rows : list nat) :
  Forall (fun i => i < n) rows -> ~ NoDup rows -> fetch_error n (sorted rows) = Some TypeError.
Proof.
  intros Hf Hd; unfold fetch_error.
  destruct (existsb (fun i => n <=? i) (sorted rows)) eqn:E1.
  - apply existsb_sorted_out, Exists_exists in E1 as (i & Hi & Hn).
    rewrite Forall_forall in Hf; specialize (Hf i Hi); lia.
  - destruct (increasing (sorted rows)) eqn:E2; [|reflexivity].
    exfalso; now apply Hd, increasing_sorted_nodup.
Qed.

(** C2 (counterexample): for the request [[1; 0]] the data come back in
    the order [0, 1], not in the request order; the request [[3; 3; 0]],
    with a repeated index, raises a TypeError. *)
Lemma get_data_part_not_request_order :
  get_data_part_call ex_dataset [1; 0] <> Ok (fetch_in_request_order ex_dataset [1; 0])
  /\ get_data_part_call ex_dataset [3; 3; 0] = Raise TypeError.
Proof. split; [vm_compute; congruence|reflexivity]. Qed.

(** C2 (amended): on distinct indices inside the data (as the indices of
    every partition are), [get_data_part rows] returns the data of exactly
    the samples of [rows], one row each, in ascending index order (the
    order of [sorted rows]); this is the request order exactly when [rows]
    is increasing. A repeated index or an index past the last sample makes
    it raise instead: TypeError when all indices are inside the data,
    IndexError when none is repeated. *)
Theorem get_data_part_sorted_order (d : Dataset) (rows : list nat) :
  let n := length (labels (src d)) in
  (Forall (fun i => i < n) rows -> NoDup rows ->
     get_data_part_call d rows = Ok (fetch_in_request_order d (sorted rows))
     /\ Permutation (sorted rows) rows /\ StronglySorted lt (sorted rows))
  /\ (Forall (fun i => i < n) rows -> StronglySorted lt rows ->
      get_data_part_call d rows = Ok (fetch_in_request_order d rows))
  /\ (Forall (fun i => i < n) rows -> ~ NoDup rows ->
      get_data_part_call d rows = Raise TypeError)
  /\ (Exists (fun i => n <= i) rows -> NoDup rows ->
      get_data_part_call d rows = Raise IndexError)
  /\ (~ (Forall (fun i => i < n) rows /\ NoDup rows) ->
      exists e, get_data_part_call d rows = Raise e).
Proof.
  intros n; unfold get_data_part_call; fold n.
  split; [|split; [|split; [|split]]].
  - intros Hf Hd; rewrite (proj2 (fetch_error_none n rows) (conj Hf Hd)).
    split; [reflexivity|split; [apply sorted_perm|]].
    apply ssorted_le_nodup; [apply sorted_ssorted|].
    apply (Permutation_NoDup (Permutation_sym (sorted_perm rows))), Hd.
  - intros Hf Hs; rewrite (proj2 (fetch_error_none n rows) (conj Hf (ssorted_nodup _ Hs))).
    now rewrite get_data_part_fetch, sorted_of_sorted.
  - intros Hf Hd; now rewrite fetch_error_dup.
  - intros Ho _; now rewrite fetch_error_out.
  - intros H; destruct (fetch_error n (sorted rows)) as [e|] eqn:E; [now exists e|].
    exfalso; now apply H, fetch_error_none.
Qed.

Lemma get_data_part_sorted_order_witness :
  get_data_part_call ex_dataset [4; 0; 9] = Ok (fetch_in_request_order ex_dataset [0; 4; 9])
  /\ get_data_part_call ex_dataset [0; 4; 9] = Ok (fetch_in_request_order ex_dataset [0; 4; 9])
  /\ get_data_part_call ex_dataset [3; 3; 0] = Raise TypeError
  /\ get_data_part_call ex_dataset [12; 0] = Raise IndexError
  /\ exists e, get_data_part_call ex_dataset [12; 12] = Raise e.
Proof.
  assert (Hn : length (labels (src ex_dataset)) = 12) by reflexivity.
  pose proof (get_data_part_sorted_order ex_dataset [4; 0; 9]) as (A & _ & _ & _ & _).
  pose proof (get_data_part_sorted_order ex_dataset [0; 4; 9]) as (_ & B & _ & _ & _).
  pose proof (get_data_part_sorted_order ex_dataset [3; 3; 0]) as (_ & _ & C & _ & _).
  pose proof (get_data_part_sorted_order ex_dataset [12; 0]) as (_ & _ & _ & D & _).
  pose proof (get_data_part_sorted_order ex_dataset [12; 12]) as (_ & _ & _ & _ & E).
  rewrite Hn in A, B, C, D, E.
  split; [|split; [|split; [|split]]].
  - apply A; repeat constructor; simpl; intuition lia.
  - apply B; repeat constructor; lia.
  - apply C; [repeat constructor; lia|].
    intros Hd; inversion Hd as [|? ? Hx]; apply Hx; now left.
  - apply D; [constructor; lia|repeat constructor; simpl; intuition lia].
  - apply E; intros [Hf _]; inversion Hf as [|? ? Hx]; lia.
Defined.

(** ** C7 *)

(** C7 (counterexample): on a dataset just constructed, [get_train_batch 4]
    returns (the data of no sample) instead of raising. *)
Lemma get_train_batch_before_pick_label :
  get_train_batch 4 (ex_world 1) = Ok (get_data_part ex_dataset [], ex_world 1).
Proof. reflexivity. Qed.

(** C7 (amended): before [pick_label] the partitions are the empty place
    holders; the sequential getters check nothing, fetch the data of an
    empty row list, and leave the whole world unchanged. *)
Theorem batches_before_pick_label codes0 raw vmap0 lat lng patch name ltest
  (r : Z) (fs : list (string * File)) (batch_size : nat) :
  let w := {| wds := init codes0 raw vmap0 lat lng patch name ltest; rng := r; files := fs |} in
  get_train_batch batch_size w = Ok (get_data_part (wds w) [], w)
  /\ get_validation_batch batch_size w = Ok (get_data_part (wds w) [], w)
  /\ get_test_batch batch_size w = Ok (get_data_part (wds w) [], w).
Proof.
  intros w; unfold get_train_batch, get_validation_batch, get_test_batch,
    bind, get_ds, put_ds, ret, slice.
  cbn [wds w init train_part validation_part test_part batch_ind batch_ind_valid
       batch_ind_test skipn length].
  rewrite !firstn_nil; repeat split.
Qed.

(** ** C8 *)

(** C8: with one prediction per test sample, [write_preds] writes to
    [fname] the table with columns [img_id, pcd, oa11, lsoa11, label_name,
    predicted] and, for the [k]-th smallest test index [i], the row
    [vmap[i] ++ [labels[i]; preds[k]]]: one row per test sample, in
    ascending index order. *)
Theorem write_preds_table (w : World) (preds : list Z) (fname : string) :
  length preds = length (test_part (wds w)) ->
  let d := wds w in
  let srows := sorted (test_part d) in
  let rows := map (fun '(i, p) => pred_row d i p) (combine srows preds) in
  write_preds preds fname w
  = Ok (tt, {| wds := d; rng := rng w;
               files := (fname, FTable {| header := pred_header d; rows_of := rows |})
                        :: files w |})
  /\ pred_header d
     = ["img_id"; "pcd"; "oa11"; "lsoa11"; label_name (src d); "predicted"]%string
  /\ Permutation srows (test_part d)
  /\ Sorted le srows
  /\ length rows = length (test_part d)
  /\ (forall k, k < length rows ->
        nth k rows [] = vmap (src d) (nth k srows 0)
                        ++ [CNum (label_at d (nth k srows 0)); CNum (nth k preds 0%Z)]).
Proof.
  intros Hlen d srows rows.
  change (test_part (wds w)) with (test_part d) in Hlen.
  assert (Hs : length srows = length (test_part d))
    by (apply Permutation_length, sorted_perm).
  assert (Hr : length rows = length (test_part d))
    by (subst rows; rewrite length_map, length_combine; lia).
  split; [|split; [reflexivity|split; [apply sorted_perm|split; [apply sorted_sorted|split; [exact Hr|]]]]].
  - unfold write_preds, bind, get_ds, write_pred_matrix.
    fold d srows.
    replace (length preds =? length srows) with true by (symmetry; apply Nat.eqb_eq; lia).
    reflexivity.
  - intros k Hk.
    rewrite (nth_indep _ [] (pred_row d 0 0%Z)) by exact Hk.
    subst rows; rewrite (map_nth (fun '(i, p) => pred_row d i p) _ (0, 0%Z)).
    rewrite combine_nth by lia; reflexivity.
Qed.

(** ** C4 *)

(** C4 (the two-way subclasses): the validation batch getters are the train
    batch getters, but [write_preds_validation] reads [validation_part],
    which [pick_label] of these subclasses never assigns: it stays empty.
    Evaluated on the twelve-sample dataset after generating a train/test
    split: the train partition has six samples, the validation partition
    none, and writing six validation predictions raises [ValueError]
    (an empty prediction array gives a table without rows). *)
Theorem two_way_write_preds_validation_empty :
  (forall batch_size,
     TwoWay.get_validation_batch batch_size = get_train_batch batch_size
     /\ TwoWay.get_balanced_validation_batch batch_size
        = get_balanced_train_batch batch_size)
  /\ length (train_part (wds ex_tt_world)) = 6
  /\ validation_part (wds ex_tt_world) = []
  /\ TwoWay.write_preds_validation [0; 0; 1; 1; 2; 2]%Z "valid.csv" ex_tt_world
     = Raise ValueError
  /\ TwoWay.write_preds_validation [] "valid.csv" ex_tt_world
     = Ok (tt, {| wds := wds ex_tt_world; rng := rng ex_tt_world;
                  files := ("valid.csv"%string,
                            FTable {| header := pred_header (wds ex_tt_world);
                                      rows_of := [] |}) :: files ex_tt_world |})
  /\ length (train_part (wds ex_byclass_world)) = 8
  /\ validation_part (wds ex_byclass_world) = []
  /\ TwoWay.write_preds_validation [0; 0; 1; 1; 2; 2; 0; 1]%Z "valid.csv"
       ex_byclass_world = Raise ValueError.
Proof.
  split; [intros; split; reflexivity|].
  vm_compute; repeat split.
Qed.

(** ** Partition files *)

Lemma preserves_with_seed {A} (seed : option Z) (f : Z -> A * Z) :
  preserves (with_seed seed f).
Proof.
  intros w a w' H; destruct seed; unfold with_seed, bind, get_rng, put_rng, ret in H.
  - injection H as _ <-; split; reflexivity.
  - destruct (f (rng w)); injection H as _ <-; split; reflexivity.
Qed.

Lemma preserves_validated {A} (b : bool) (e : PyErr) (m : M A) :
  preserves m -> preserves (if b then raise e else m).
Proof. intros Hm w a w' H; destruct b; [discriminate|exact (Hm _ _ _ H)]. Qed.

Lemma preserves_partition_stratified (d : Dataset) (q : Q) (seed : option Z) :
  preserves (partition_stratified d q seed).
Proof. apply preserves_validated, preserves_with_seed. Qed.

Lemma preserves_partition_stratified_validation (d : Dataset) (q1 q2 : Q)
  (seed : option Z) : preserves (partition_stratified_validation d q1 q2 seed).
Proof. apply preserves_validated, preserves_with_seed. Qed.

Lemma preserves_partition_stratified_kfold (k : nat) (d : Dataset) (seed : option Z) :
  preserves (partition_stratified_kfold k d seed).
Proof. apply preserves_validated, preserves_with_seed. Qed.

Lemma preserves_partition_by_class (d : Dataset) (lt : list Z) (seed : option Z) :
  preserves (partition_by_class d lt seed).
Proof. intros w a w' H; injection H as _ <-; split; reflexivity. Qed.

Lemma decimate_spec (d : Dataset) (part : list nat) (q : Q) :
  preserves (decimate_partition_stratified d part q)
  /\ succeeds_anywhere (decimate_partition_stratified d part q).
Proof.
  split; [apply preserves_validated, preserves_with_seed|].
  intros w a w1 w' H; unfold decimate_partition_stratified in *.
  destruct (negb (frac_ok q)); [discriminate|].
  unfold with_seed, bind, get_rng, put_rng, ret.
  destruct (split_by_class _ _ _ _ _); eauto.
Qed.

Lemma get_partition_pure (i : nat) (folds : list (list nat)) (w w' : World) a :
  get_partition_stratified_kfold i folds w = Ok (a, w') ->
  w' = w /\ forall w2, get_partition_stratified_kfold i folds w2 = Ok (a, w2).
Proof.
  unfold get_partition_stratified_kfold, ret, raise.
  destruct (i <? length folds); [|discriminate].
  intros H; injection H as <- <-; split; reflexivity.
Qed.

Lemma append_cancel (f a b : string) : (f ++ a)%string = (f ++ b)%string -> a = b.
Proof.
  induction f as [|c f IH]; simpl; [tauto|].
  intros H; injection H as H; now apply IH.
Qed.

Lemma lookup_file_head (n n' : string) (x : File) (fs : list (string * File)) :
  lookup_file n ((n', x) :: fs) = if String.eqb n' n then Some x else lookup_file n fs.
Proof. reflexivity. Qed.

Lemma lookup_file_other (n n' : string) (x : File) (fs : list (string * File)) :
  n' <> n -> lookup_file n ((n', x) :: fs) = lookup_file n fs.
Proof.
  intros Hne; rewrite lookup_file_head.
  now replace (String.eqb n' n) with false by (symmetry; now apply String.eqb_neq).
Qed.

Lemma lookup_file_same (n : string) (x : File) (fs : list (string * File)) :
  lookup_file n ((n, x) :: fs) = Some x.
Proof. rewrite lookup_file_head, String.eqb_refl; reflexivity. Qed.

Lemma sfx_distinct (f : string) :
  (f ++ sfx_train)%string <> (f ++ sfx_test)%string
  /\ (f ++ sfx_train)%string <> (f ++ sfx_validation)%string
  /\ (f ++ sfx_validation)%string <> (f ++ sfx_test)%string.
Proof.
  repeat split; intros H; apply append_cancel in H; discriminate.
Qed.

(** The closing block of the TVT / TT [pick_label]: it only assigns the
    train part, and succeeds in every world once it succeeded in one. *)
Lemma assign_train_part_spec (d : Dataset) (tr0 : list nat) (psize : Q)
  (w w1 : World) (u : unit) :
  assign_train_part d tr0 psize w = Ok (u, w1) ->
  forall w', exists tr w1',
    assign_train_part d tr0 psize w' = Ok (tt, w1')
    /\ wds w1' = set_train_part tr (wds w') /\ files w1' = files w'
    /\ (Qltb psize 1 = false -> tr = tr0).
Proof.
  intros H w'; unfold assign_train_part in *.
  destruct (Qltb psize 1).
  - unfold bind in *.
    destruct (decimate_partition_stratified d tr0 psize w) as [[q wq]|] eqn:E;
      [|discriminate].
    destruct (proj2 (decimate_spec d tr0 psize) _ _ _ w' E) as (q' & wq' & E').
    destruct (proj1 (decimate_spec d tr0 psize) _ _ _ E') as [Hd Hf].
    rewrite E'; exists (fst q'), (set_ds (set_train_part (fst q') (wds wq')) wq').
    unfold modify_ds; split; [reflexivity|]; cbn [wds files set_ds].
    rewrite Hd; split; [reflexivity|split; [exact Hf|discriminate]].
  - exists tr0, (set_ds (set_train_part tr0 (wds w')) w').
    repeat split.
Qed.

Lemma TT_generate_spec (gen : Dataset -> M (list nat * list nat)) (d : Dataset)
  (f : string) (w0 wa : World) (tr0 : list nat) :
  (forall d, preserves (gen d)) ->
  TT.generate gen d f w0 = Ok (tr0, wa) ->
  exists te, wds wa = set_test_part te (wds w0)
    /\ lookup_file (f ++ sfx_train) (files wa) = Some (FPart tr0)
    /\ lookup_file (f ++ sfx_test) (files wa) = Some (FPart te).
Proof.
  intros Hgen H; unfold TT.generate, bind in H.
  destruct (gen d w0) as [[[tr te] w']|] eqn:G; [|discriminate].
  destruct (Hgen d _ _ _ G) as [Hd Hf].
  cbv [modify_ds write_file ret] in H; injection H as <- <-.
  exists te; cbn [wds files set_ds]; rewrite Hd.
  destruct (sfx_distinct f) as (H1 & _ & _).
  split; [reflexivity|split].
  - rewrite lookup_file_other by (intros E; apply H1; symmetry; exact E).
    apply lookup_file_same.
  - apply lookup_file_same.
Qed.

Lemma TT_load_spec (f : string) (w : World) (tr0 te : list nat) :
  lookup_file (f ++ sfx_train) (files w) = Some (FPart tr0) ->
  lookup_file (f ++ sfx_test) (files w) = Some (FPart te) ->
  TT.load f w = Ok (tr0, set_ds (set_test_part te (wds w)) w).
Proof.
  intros H1 H2; unfold TT.load, bind, read_part; rewrite H1, H2; reflexivity.
Qed.

Lemma TT_replay (gen gen' : Dataset -> M (list nat * list nat)) (f : string)
  (psize : Q) (pg : Z) (w0 w1 w0' : World) :
  (forall d, preserves (gen d)) ->
  TT.pick_label_with gen 1 f psize w0 = Ok (tt, w1) ->
  pg <> 1%Z -> wds w0' = wds w0 ->
  (forall n, lookup_file n (files w0') = lookup_file n (files w1)) ->
  exists X tr tr' w2, TT.pick_label_with gen' pg f psize w0' = Ok (tt, w2)
    /\ wds w1 = set_train_part tr X /\ wds w2 = set_train_part tr' X
    /\ (Qltb psize 1 = false -> tr = tr').
Proof.
  intros Hgen H Hpg Hd Hfiles.
  unfold TT.pick_label_with, bind, get_ds in H |- *; cbn [Z.eqb Pos.eqb] in H.
  destruct (TT.generate gen (wds w0) f w0) as [[tr0 wa]|] eqn:G; [|discriminate].
  destruct (TT_generate_spec gen _ f w0 wa tr0 Hgen G) as (te & Hwa & L1 & L2).
  destruct (assign_train_part_spec _ _ _ _ _ _ H wa) as (tr & w1' & E1 & D1 & F1 & N1).
  rewrite E1 in H; injection H as <-.
  replace (pg =? 1)%Z with false by (symmetry; now apply Z.eqb_neq).
  rewrite (TT_load_spec f w0' tr0 te) by (rewrite Hfiles, F1; assumption).
  destruct (assign_train_part_spec _ _ _ _ _ _ E1
              (set_ds (set_test_part te (wds w0')) w0'))
    as (tr' & w2 & E2 & D2 & _ & N2).
  rewrite Hd in E2, D2 |- *; rewrite E2; cbn [wds set_ds] in D2.
  exists (set_test_part te (wds w0)), tr, tr', w2.
  split; [reflexivity|split; [rewrite D1, Hwa; reflexivity|split; [exact D2|]]].
  intros Hq; rewrite (N1 Hq), (N2 Hq); reflexivity.
Qed.

Lemma TVT_generate_spec (d : Dataset) (f : string) (ts vs : Q) (seed : option Z)
  (w0 wa : World) (tr0 : list nat) :
  TVT.generate d f ts vs seed w0 = Ok (tr0, wa) ->
  exists va te, wds wa = set_test_part te (set_validation_part va (wds w0))
    /\ lookup_file (f ++ sfx_train) (files wa) = Some (FPart tr0)
    /\ lookup_file (f ++ sfx_validation) (files wa) = Some (FPart va)
    /\ lookup_file (f ++ sfx_test) (files wa) = Some (FPart te).
Proof.
  intros H; unfold TVT.generate, bind in H.
  destruct (partition_stratified_validation d ts vs seed w0) as [[[[tr va] te] w']|] eqn:G;
    [|discriminate].
  destruct (preserves_partition_stratified_validation d ts vs seed _ _ _ G) as [Hd Hf].
  cbv [modify_ds write_file ret] in H; injection H as <- <-.
  exists va, te; cbn [wds files set_ds]; rewrite Hd.
  destruct (sfx_distinct f) as (H1 & H2 & H3).
  split; [reflexivity|split; [|split]].
  - rewrite !lookup_file_other by (intros E; symmetry in E; contradiction).
    apply lookup_file_same.
  - rewrite lookup_file_other by (intros E; symmetry in E; contradiction).
    apply lookup_file_same.
  - apply lookup_file_same.
Qed.

Lemma TVT_load_spec (f : string) (w : World) (tr0 va te : list nat) :
  lookup_file (f ++ sfx_train) (files w) = Some (FPart tr0) ->
  lookup_file (f ++ sfx_validation) (files w) = Some (FPart va) ->
  lookup_file (f ++ sfx_test) (files w) = Some (FPart te) ->
  TVT.load f w = Ok (tr0, set_ds (set_test_part te (set_validation_part va (wds w))) w).
Proof.
  intros H1 H2 H3; unfold TVT.load, bind, read_part, modify_ds, ret.
  rewrite H1, H2; cbn [files set_ds]; rewrite H3; reflexivity.
Qed.

Lemma TVT_replay (f : string) (ts vs psize : Q) (seed seed' : option Z)
  (pg : Z) (w0 w1 w0' : World) :
  TVT.pick_label 1 f ts vs psize seed w0 = Ok (tt, w1) ->
  pg <> 1%Z -> wds w0' = wds w0 ->
  (forall n, lookup_file n (files w0') = lookup_file n (files w1)) ->
  exists X tr tr' w2, TVT.pick_label pg f ts vs psize seed' w0' = Ok (tt, w2)
    /\ wds w1 = set_train_part tr X /\ wds w2 = set_train_part tr' X
    /\ (Qltb psize 1 = false -> tr = tr').
Proof.
  intros H Hpg Hd Hfiles.
  unfold TVT.pick_label, bind, get_ds in H |- *; cbn [Z.eqb Pos.eqb] in H.
  destruct (TVT.generate (wds w0) f ts vs seed w0) as [[tr0 wa]|] eqn:G; [|discriminate].
  destruct (TVT_generate_spec _ f ts vs seed w0 wa tr0 G) as (va & te & Hwa & L1 & L2 & L3).
  destruct (assign_train_part_spec _ _ _ _ _ _ H wa) as (tr & w1' & E1 & D1 & F1 & N1).
  rewrite E1 in H; injection H as <-.
  replace (pg =? 1)%Z with false by (symmetry; now apply Z.eqb_neq).
  rewrite (TVT_load_spec f w0' tr0 va te) by (rewrite Hfiles, F1; assumption).
  destruct (assign_train_part_spec _ _ _ _ _ _ E1
              (set_ds (set_test_part te (set_validation_part va (wds w0'))) w0'))
    as (tr' & w2 & E2 & D2 & _ & N2).
  rewrite Hd in E2, D2 |- *; rewrite E2; cbn [wds set_ds] in D2.
  exists (set_test_part te (set_validation_part va (wds w0))), tr, tr', w2.
  split; [reflexivity|split; [rewrite D1, Hwa; reflexivity|split; [exact D2|]]].
  intros Hq; rewrite (N1 Hq), (N2 Hq); reflexivity.
Qed.

Lemma CV_generate_spec (d : Dataset) (f : string) (kn : nat) (seed : option Z)
  (w0 wa : World) (kp : list (list nat)) :
  CrossValidation.generate d f kn seed w0 = Ok (kp, wa) ->
  wds wa = set_kpartitions kp (wds w0)
  /\ lookup_file f (files wa) = Some (FFolds kp).
Proof.
  intros H; unfold CrossValidation.generate, bind in H.
  destruct (partition_stratified_kfold kn d seed w0) as [[kp0 w']|] eqn:G; [|discriminate].
  destruct (preserves_partition_stratified_kfold kn d seed _ _ _ G) as [Hd Hf].
  cbv [modify_ds] in H; cbv beta in H.
  destruct (partition_stratified_kfold kn d seed
              (set_ds (set_kpartitions kp0 (wds w')) w')) as [[kp1 w'']|] eqn:G2;
    [|discriminate].
  destruct (preserves_partition_stratified_kfold kn d seed _ _ _ G2) as [Hd2 Hf2].
  cbv [write_file ret] in H; injection H as <- <-.
  cbn [wds files set_ds]; rewrite Hd2, Hd; split; [reflexivity|].
  apply lookup_file_same.
Qed.

Lemma CV_load_spec (f : string) (w : World) (kp : list (list nat)) :
  lookup_file f (files w) = Some (FFolds kp) ->
  CrossValidation.load f w = Ok (kp, set_ds (set_kpartitions kp (wds w)) w).
Proof.
  intros H; unfold CrossValidation.load, bind, read_folds, modify_ds, ret.
  rewrite H; reflexivity.
Qed.

(** The closing block of the cross-validation [pick_label]: the test part
    is a fold, fixed by the folds; train and validation are redrawn only
    when [vsize > 0]. *)
Lemma assign_parts_spec (d : Dataset) (kp : list (list nat)) (i : nat) (v : Q)
  (w w1 : World) (u : unit) :
  CrossValidation.assign_parts d kp i v w = Ok (u, w1) ->
  exists te tr0, forall w', exists tr va w1',
    CrossValidation.assign_parts d kp i v w' = Ok (tt, w1')
    /\ wds w1' = set_validation_part va (set_train_part tr (set_test_part te (wds w')))
    /\ files w1' = files w'
    /\ (Qltb 0 v = false -> tr = tr0 /\ va = validation_part (wds w')).
Proof.
  intros H; unfold CrossValidation.assign_parts, bind in H.
  destruct (get_partition_stratified_kfold i kp w) as [[[tr0 te] wp]|] eqn:G;
    [|discriminate].
  destruct (get_partition_pure i kp w wp _ G) as [_ Hall].
  exists te, tr0; intros w'.
  unfold CrossValidation.assign_parts, bind; rewrite Hall.
  cbv [modify_ds] in H |- *; cbv beta in H |- *.
  destruct (Qltb 0 v).
  - destruct (decimate_partition_stratified d tr0 (1 - v)
                (set_ds (set_test_part te (wds wp)) wp)) as [[q wq]|] eqn:E;
      [|discriminate].
    destruct (proj2 (decimate_spec d tr0 (1 - v)) _ _ _
                (set_ds (set_test_part te (wds w')) w') E) as ([tr va] & wq' & E').
    destruct (proj1 (decimate_spec d tr0 (1 - v)) _ _ _ E') as [Hd Hf].
    rewrite E'; eexists tr, va, _; split; [reflexivity|].
    cbn [wds files set_ds] in *; rewrite Hd, Hf.
    split; [reflexivity|split; [reflexivity|discriminate]].
  - eexists tr0, (validation_part (wds w')), _; split; [reflexivity|].
    repeat split.
Qed.

Lemma CV_replay (f : string) (kn kp : nat) (v : Q) (seed seed' : option Z)
  (pg : Z) (w0 w1 w0' : World) :
  CrossValidation.pick_label 1 f kn kp v seed w0 = Ok (tt, w1) ->
  pg <> 1%Z -> wds w0' = wds w0 ->
  (forall n, lookup_file n (files w0') = lookup_file n (files w1)) ->
  exists X tr tr' va va' w2,
    CrossValidation.pick_label pg f kn kp v seed' w0' = Ok (tt, w2)
    /\ wds w1 = set_validation_part va (set_train_part tr X)
    /\ wds w2 = set_validation_part va' (set_train_part tr' X)
    /\ (Qltb 0 v = false -> tr = tr' /\ va = va').
Proof.
  intros H Hpg Hd Hfiles.
  unfold CrossValidation.pick_label, bind, get_ds in H |- *; cbn [Z.eqb Pos.eqb] in H.
  destruct (CrossValidation.generate (wds w0) f kn seed w0) as [[folds wa]|] eqn:G;
    [|discriminate].
  destruct (CV_generate_spec _ f kn seed w0 wa folds G) as (Hwa & L).
  destruct (assign_parts_spec _ _ _ _ _ _ _ H) as (te & tr0 & Hall).
  destruct (Hall wa) as (tr & va & w1' & E1 & D1 & F1 & N1).
  rewrite E1 in H; injection H as <-.
  replace (pg =? 1)%Z with false by (symmetry; now apply Z.eqb_neq).
  rewrite (CV_load_spec f w0' folds) by (rewrite Hfiles, F1; assumption).
  destruct (Hall (set_ds (set_kpartitions folds (wds w0')) w0'))
    as (tr' & va' & w2 & E2 & D2 & _ & N2).
  rewrite Hd in E2, D2, N2 |- *; rewrite E2; cbn [wds set_ds] in D2, N2.
  exists (set_test_part te (set_kpartitions folds (wds w0))), tr, tr', va, va', w2.
  split; [reflexivity|split; [rewrite D1, Hwa; reflexivity|split; [exact D2|]]].
  intros Hq; destruct (N1 Hq) as [-> ->]; destruct (N2 Hq) as [-> ->].
  rewrite Hwa; split; reflexivity.
Qed.

(** C3 (counterexample): in the train/test mode with [psize = 0.5], loading
    the persisted partition files does not reproduce the training partition
    of the generation run: the decimation draws from the global generator. *)
Lemma pick_label_load_redraws_train :
  pick_label (TrainTest (1 # 2) (1 # 2)) 1 "part" (Some 5%Z) (ex_world 1)
    = Ok (tt, ex_gen_world (TrainTest (1 # 2) (1 # 2)))
  /\ match pick_label (TrainTest (1 # 2) (1 # 2)) 0 "part" (Some 5%Z)
             (ex_load_world (TrainTest (1 # 2) (1 # 2))) with
     | Ok (_, w2) =>
         test_part (wds w2) = test_part (wds (ex_gen_world (TrainTest (1 # 2) (1 # 2))))
         /\ train_part (wds w2) <> train_part (wds (ex_gen_world (TrainTest (1 # 2) (1 # 2))))
     | Raise _ => False
     end.
Proof.
  vm_compute; split; [reflexivity|split; [reflexivity|intros H; discriminate H]].
Qed.

(** C3 (amended): for every split mode, a load-mode call of [pick_label]
    ([part_gen <> 1]) on the same dataset and on files that agree with
    those written by a generation-mode call reproduces the folds and the
    test partition of that call, and the validation partition in the
    train/validation/test and train/test modes; the whole dataset state,
    train partition included, is reproduced when the mode does not
    decimate ([decimates k = false], i.e. [psize >= 1], or [vsize <= 0] for
    k-fold), the train partition being redrawn otherwise. *)
Theorem pick_label_load_replays (k : SplitKind) (f : string) (seed seed' : option Z)
  (pg : Z) (w0 w1 w0' : World) :
  pick_label k 1 f seed w0 = Ok (tt, w1) ->
  pg <> 1%Z -> wds w0' = wds w0 ->
  (forall n, lookup_file n (files w0') = lookup_file n (files w1)) ->
  exists w2, pick_label k pg f seed' w0' = Ok (tt, w2)
    /\ kpartitions (wds w2) = kpartitions (wds w1)
    /\ test_part (wds w2) = test_part (wds w1)
    /\ ((forall kn kp v, k <> KFold kn kp v) ->
        validation_part (wds w2) = validation_part (wds w1))
    /\ (decimates k = false -> wds w2 = wds w1).
Proof.
  intros H Hpg Hd Hf; destruct k as [kn kp v|ts vs ps|ts ps|ts ps];
    cbn [pick_label decimates] in *.
  - destruct (CV_replay f kn kp v seed seed' pg w0 w1 w0' H Hpg Hd Hf)
      as (X & tr & tr' & va & va' & w2 & E & D1 & D2 & N).
    exists w2; rewrite D1, D2; split; [exact E|].
    split; [reflexivity|split; [reflexivity|split]].
    + intros Hk; destruct (Hk kn kp v eq_refl).
    + intros Hq; destruct (N Hq) as [-> ->]; reflexivity.
  - destruct (TVT_replay f ts vs ps seed seed' pg w0 w1 w0' H Hpg Hd Hf)
      as (X & tr & tr' & w2 & E & D1 & D2 & N).
    exists w2; rewrite D1, D2; split; [exact E|].
    repeat split; intros Hq; rewrite (N Hq); reflexivity.
  - destruct (TT_replay _ (fun d => partition_stratified d ts seed') f ps pg w0 w1 w0'
                (fun d => preserves_partition_stratified d ts seed) H Hpg Hd Hf)
      as (X & tr & tr' & w2 & E & D1 & D2 & N).
    exists w2; rewrite D1, D2; split; [exact E|].
    repeat split; intros Hq; rewrite (N Hq); reflexivity.
  - destruct (TT_replay _ (fun d => partition_by_class d (label_test (src d)) seed')
                f ps pg w0 w1 w0'
                (fun d => preserves_partition_by_class d (label_test (src d)) seed)
                H Hpg Hd Hf)
      as (X & tr & tr' & w2 & E & D1 & D2 & N).
    exists w2; rewrite D1, D2; split; [exact E|].
    repeat split; intros Hq; rewrite (N Hq); reflexivity.
Qed.

(** Witnesses. *)

Lemma sequential_batches_epoch_witness :
  train_part (wds ex_tt_world) <> [] /\ batch_ind (wds ex_tt_world) = 0 /\
  repeat_call (ceil_div (length (train_part (wds ex_tt_world))) 4)
    (get_train_batch 4) ex_tt_world
  = Ok (map (get_data_part (wds ex_tt_world))
          (batch_slices 4 (train_part (wds ex_tt_world))), ex_tt_world).
Proof.
  assert (Hne : train_part (wds ex_tt_world) <> []) by (vm_compute; discriminate).
  assert (H0 : batch_ind (wds ex_tt_world) = 0) by (vm_compute; reflexivity).
  split; [exact Hne|split; [exact H0|]].
  pose proof (sequential_batches_epoch ex_tt_world 4 ltac:(lia)) as [Htr _].
  exact (proj1 (Htr Hne H0)).
Defined.

Lemma iterators_full_pass_witness :
  concat (batch_slices 4 (test_part (wds ex_tt_world))) = test_part (wds ex_tt_world)
  /\ length (batch_slices 4 (test_part (wds ex_tt_world)))
     = ceil_div (length (test_part (wds ex_tt_world))) 4.
Proof.
  pose proof (iterators_full_pass ex_tt_world 4 ltac:(lia)) as H; cbv zeta in H.
  destruct H as (_ & _ & Hc & Hl & _).
  exact (conj Hc Hl).
Defined.

Lemma balanced_train_batch_per_class_witness :
  exists rows w',
    get_balanced_train_batch 9 ex_full_train_world
    = Ok (get_data_part (wds ex_full_train_world) rows, w')
    /\ incl rows (seq 0 12)
    /\ (forall lab, In lab [0; 1; 2]%Z ->
          length (class_members (wds ex_full_train_world) lab rows) = 3).
Proof.
  assert (Hn : 0 < num_labels (wds ex_full_train_world))
    by (apply Nat.ltb_lt; vm_compute; reflexivity).
  assert (Hc : forall lab, In lab (label_types (wds ex_full_train_world)) ->
            9 / num_labels (wds ex_full_train_world)
            <= length (class_members (wds ex_full_train_world) lab
                         (train_part (wds ex_full_train_world)))).
  { intros lab Hin; vm_compute in Hin.
    destruct Hin as [<-|[<-|[<-|[]]]]; apply Nat.leb_le; vm_compute; reflexivity. }
  destruct (balanced_train_batch_per_class ex_full_train_world 9 Hn Hc)
    as (rows & w' & E & Hi & Hk & _).
  exists rows, w'; split; [exact E|split; [exact Hi|]].
  intros lab Hin; exact (proj1 (Hk lab Hin)).
Defined.

Lemma write_preds_table_witness :
  pred_header (wds ex_tt_world)
  = ["img_id"; "pcd"; "oa11"; "lsoa11"; "decile"; "predicted"]%string
  /\ length (map (fun '(i, p) => pred_row (wds ex_tt_world) i p)
               (combine (sorted (test_part (wds ex_tt_world))) [0; 0; 1; 1; 2; 2]%Z))
     = length (test_part (wds ex_tt_world)).
Proof.
  assert (Hl : length [0; 0; 1; 1; 2; 2]%Z = length (test_part (wds ex_tt_world)))
    by (vm_compute; reflexivity).
  pose proof (write_preds_table ex_tt_world [0; 0; 1; 1; 2; 2]%Z "preds.csv" Hl) as H.
  cbv zeta in H; destruct H as (_ & Hh & _ & _ & Hr & _).
  exact (conj Hh Hr).
Defined.

Lemma pick_label_load_replays_witness :
  exists w2,
    pick_label (TrainTest (1 # 2) 1) 0 "part" None (ex_load_world (TrainTest (1 # 2) 1))
    = Ok (tt, w2)
    /\ wds w2 = wds (ex_gen_world (TrainTest (1 # 2) 1)).
Proof.
  assert (Hg : pick_label (TrainTest (1 # 2) 1) 1 "part" (Some 5%Z) (ex_world 1)
               = Ok (tt, ex_gen_world (TrainTest (1 # 2) 1)))
    by (vm_compute; reflexivity).
  assert (Hpg : (0 <> 1)%Z) by discriminate.
  assert (Hd : wds (ex_load_world (TrainTest (1 # 2) 1)) = wds (ex_world 1))
    by reflexivity.
  assert (Hf : forall n, lookup_file n (files (ex_load_world (TrainTest (1 # 2) 1)))
                         = lookup_file n (files (ex_gen_world (TrainTest (1 # 2) 1))))
    by reflexivity.
  destruct (pick_label_load_replays (TrainTest (1 # 2) 1) "part" (Some 5%Z) None 0
              (ex_world 1) (ex_gen_world (TrainTest (1 # 2) 1))
              (ex_load_world (TrainTest (1 # 2) 1)) Hg Hpg Hd Hf)
    as (w2 & E & _ & _ & _ & Hw).
  exists w2; split; [exact E|apply Hw; vm_compute; reflexivity].
Defined.

(* ================================================================== *)
(** * Further properties of the code *)

(** ** [soften_ordinal_labels] *)

(** A scan that meets no value above [bv] keeps its best position. *)
Lemma argmax_from_keep (k best : nat) (bv : PrimFloat.float) (xs : list PrimFloat.float) :
  Forall (fun y => PrimFloat.leb y bv = true) xs -> argmax_from k best bv xs = best.
Proof.
  revert k; induction xs as [|y xs IH]; intros k H; [reflexivity|].
  inversion H as [|? ? Hy Hxs]; subst; simpl; rewrite Hy; simpl.
  now apply IH.
Qed.

(** The scan reaches [x] with a best value below it, whatever it met in
    [pre] (numbers below [x]), and nothing in [post] is above [x]. *)
Lemma argmax_from_dom (k best : nat) (bv x : PrimFloat.float) (pre post : list PrimFloat.float) :
  PrimFloat.leb x bv = false ->
  Forall (fun y => PrimFloat.is_nan y = false /\ PrimFloat.leb x y = false) pre ->
  Forall (fun y => PrimFloat.leb y x = true) post ->
  argmax_from k best bv (pre ++ x :: post) = k + length pre.
Proof.
  revert k best bv; induction pre as [|y pre IH]; intros k best bv Hbv Hpre Hpost.
  - simpl; rewrite Hbv; simpl.
    destruct (PrimFloat.is_nan x); [lia|].
    rewrite argmax_from_keep by exact Hpost; lia.
  - inversion Hpre as [|? ? [Hyn Hy] Hpre']; subst; simpl.
    destruct (negb (PrimFloat.leb y bv)).
    + rewrite Hyn, IH by assumption; lia.
    + rewrite IH by assumption; lia.
Qed.

Lemma Forall_nth_range {A} (P : A -> Prop) (xs : list A) (d : A) :
  (forall k, k < length xs -> P (nth k xs d)) -> Forall P xs.
Proof.
  intros H; apply Forall_forall; intros y Hy.
  apply (In_nth _ _ d) in Hy as (k & Hk & <-); now apply H.
Qed.

Lemma skipn_nth_cons {A} (n : nat) (t : list A) (d : A) :
  n < length t -> skipn n t = nth n t d :: skipn (S n) t.
Proof.
  revert t; induction n as [|n IH]; intros [|z t] H; simpl in *; try lia;
    [reflexivity|apply IH; lia].
Qed.

(** [np.argmax] of a row whose other entries are numbers strictly below
    (in the sense of [<=]) its entry [j] is [j]. *)
Lemma argmax_strict_max (xs : list PrimFloat.float) (j : nat) :
  j < length xs ->
  (forall k, k < length xs -> k <> j ->
     PrimFloat.is_nan (nth k xs PrimFloat.zero) = false
     /\ PrimFloat.leb (nth k xs PrimFloat.zero) (nth j xs PrimFloat.zero) = true
     /\ PrimFloat.leb (nth j xs PrimFloat.zero) (nth k xs PrimFloat.zero) = false) ->
  argmax xs = Some j.
Proof.
  intros Hj H; destruct xs as [|y0 t]; simpl in Hj; [lia|].
  simpl argmax; f_equal.
  destruct j as [|j'].
  - destruct (PrimFloat.is_nan y0); [reflexivity|].
    apply argmax_from_keep, (Forall_nth_range _ _ PrimFloat.zero); intros k Hk.
    exact (proj1 (proj2 (H (S k) ltac:(simpl; lia) ltac:(lia)))).
  - destruct (H 0 ltac:(simpl; lia) ltac:(lia)) as (H0n & _ & H0); simpl in H0n, H0.
    rewrite H0n.
    rewrite <- (firstn_skipn j' t) at 1.
    assert (Ht : skipn j' t = nth j' t PrimFloat.zero :: skipn (S j') t)
      by (apply skipn_nth_cons; simpl in Hj; lia).
    rewrite Ht, argmax_from_dom.
    + rewrite length_firstn; lia.
    + exact H0.
    + apply (Forall_nth_range _ _ PrimFloat.zero); intros k Hk; rewrite length_firstn in Hk.
      rewrite nth_firstn; replace (k <? j') with true by (symmetry; apply Nat.ltb_lt; lia).
      destruct (H (S k) ltac:(simpl; lia) ltac:(lia)) as (Hn & _ & Hl); split; assumption.
    + apply (Forall_nth_range _ _ PrimFloat.zero); intros k Hk; rewrite length_skipn in Hk.
      rewrite nth_skipn.
      exact (proj1 (proj2 (H (S (S j' + k)) ltac:(simpl; lia) ltac:(lia)))).
Qed.

Lemma upd_length {A} (k : nat) (r : list A) (v : A) :
  k < length r -> length (firstn k r ++ v :: skipn (S k) r) = length r.
Proof.
  intros Hk; rewrite length_app, length_firstn; cbn [length]; rewrite length_skipn; lia.
Qed.

Lemma upd_nth {A} (k : nat) (r : list A) (v d : A) (k' : nat) :
  k < length r ->
  nth k' (firstn k r ++ v :: skipn (S k) r) d = if k' =? k then v else nth k' r d.
Proof.
  intros Hk; destruct (Nat.ltb_spec k' k) as [Hlt|Hge].
  - rewrite app_nth1 by (rewrite length_firstn; lia).
    rewrite nth_firstn; replace (k' <? k) with true by (symmetry; now apply Nat.ltb_lt).
    replace (k' =? k) with false by (symmetry; apply Nat.eqb_neq; lia); reflexivity.
  - rewrite app_nth2 by (rewrite length_firstn; lia); rewrite length_firstn.
    replace (Nat.min k (length r)) with k by lia.
    destruct (k' - k) as [|i] eqn:E.
    + replace (k' =? k) with true by (symmetry; apply Nat.eqb_eq; lia); reflexivity.
    + replace (k' =? k) with false by (symmetry; apply Nat.eqb_neq; lia).
      cbn [nth]; rewrite nth_skipn; f_equal; lia.
Qed.

Lemma set_at_pos {A} (r : list A) (k : nat) (v : A) :
  k < length r -> set_at r (Z.of_nat k) v = inl (firstn k r ++ v :: skipn (S k) r).
Proof.
  intros Hk; unfold set_at.
  replace ((Z.of_nat k <? - Z.of_nat (length r)) || (Z.of_nat (length r) <=? Z.of_nat k))%Z
    with false by (symmetry; apply orb_false_iff; split; [apply Z.ltb_ge|apply Z.leb_gt]; lia).
  replace (Z.of_nat k <? 0)%Z with false by (symmetry; apply Z.ltb_ge; lia).
  now rewrite Nat2Z.id.
Qed.

Lemma set_at_neg {A} (r : list A) (k : nat) (v : A) :
  k < length r ->
  set_at r (Z.of_nat k - Z.of_nat (length r)) v = inl (firstn k r ++ v :: skipn (S k) r).
Proof.
  intros Hk; unfold set_at.
  replace (((Z.of_nat k - Z.of_nat (length r)) <? - Z.of_nat (length r))
           || (Z.of_nat (length r) <=? (Z.of_nat k - Z.of_nat (length r))))%Z
    with false by (symmetry; apply orb_false_iff; split; [apply Z.ltb_ge|apply Z.leb_gt]; lia).
  replace (Z.of_nat k - Z.of_nat (length r) <? 0)%Z with true by (symmetry; apply Z.ltb_lt; lia).
  replace (Z.to_nat (Z.of_nat k - Z.of_nat (length r) + Z.of_nat (length r))) with k
    by lia; reflexivity.
Qed.

Lemma length_unit_row (C j : nat) : length (unit_row C j) = C.
Proof. unfold unit_row; now rewrite length_map, length_seq. Qed.

Lemma nth_map_seq {A} (f : nat -> A) (C k : nat) (d : A) :
  k < C -> nth k (map f (seq 0 C)) d = f k.
Proof.
  intros Hk; rewrite nth_indep with (d' := f 0) by (rewrite length_map, length_seq; lia).
  rewrite map_nth, seq_nth by lia; reflexivity.
Qed.

Lemma argmax_unit_row (C j : nat) : j < C -> argmax (unit_row C j) = Some j.
Proof.
  intros Hj; apply argmax_strict_max; rewrite length_unit_row; [exact Hj|].
  intros k Hk Hkj; unfold unit_row; rewrite !nth_map_seq by lia.
  rewrite Nat.eqb_refl; replace (k =? j) with false by (symmetry; now apply Nat.eqb_neq).
  repeat split; reflexivity.
Qed.

Lemma soften_ones_unit_row (m : PrimFloat.float) (C j : nat) :
  soften_ones m (unit_row C j)
  = map (fun k => if k =? j then PrimFloat.sub PrimFloat.one m else PrimFloat.zero) (seq 0 C).
Proof.
  unfold soften_ones, unit_row; rewrite map_map; apply map_ext; intros k.
  destruct (k =? j); reflexivity.
Qed.

Lemma soften_row_unit (m : PrimFloat.float) (C j : nat) :
  2 <= C -> j < C ->
  soften_row m C (unit_row C j) (soften_ones m (unit_row C j))
  = inl (map (soft_value m C j) (seq 0 C)).
Proof.
  intros HC Hj; unfold soften_row; rewrite argmax_unit_row by exact Hj.
  rewrite soften_ones_unit_row.
  set (r := map (fun k => if k =? j then PrimFloat.sub PrimFloat.one m else PrimFloat.zero)
                (seq 0 C)).
  assert (Hr : length r = C) by (subst r; now rewrite length_map, length_seq).
  assert (Hrn : forall k, k < C ->
            nth k r PrimFloat.zero
            = if k =? j then PrimFloat.sub PrimFloat.one m else PrimFloat.zero)
    by (intros k Hk; subst r; now rewrite nth_map_seq).
  destruct (Nat.eqb_spec j 0) as [->|Hj0]; [|destruct (Nat.eqb_spec j (C - 1)) as [Hjl|Hjl]].
  - change 1%Z with (Z.of_nat 1); rewrite set_at_pos by lia; f_equal.
    apply nth_ext with (d := PrimFloat.zero) (d' := PrimFloat.zero);
      [rewrite upd_length by lia; now rewrite length_map, length_seq|].
    intros k Hk; rewrite upd_length in Hk by lia.
    rewrite upd_nth, nth_map_seq by lia; rewrite Hrn by lia.
    unfold soft_value; nat_cases.
  - replace (-2)%Z with (Z.of_nat (C - 2) - Z.of_nat (length r))%Z by lia.
    rewrite set_at_neg by lia; f_equal.
    apply nth_ext with (d := PrimFloat.zero) (d' := PrimFloat.zero);
      [rewrite upd_length by lia; now rewrite length_map, length_seq|].
    intros k Hk; rewrite upd_length in Hk by lia.
    rewrite upd_nth, nth_map_seq by lia; rewrite Hrn by lia.
    unfold soft_value; nat_cases.
  - replace (Z.of_nat j - 1)%Z with (Z.of_nat (j - 1)) by lia.
    rewrite set_at_pos by lia.
    replace (Z.of_nat j + 1)%Z with (Z.of_nat (j + 1)) by lia.
    rewrite set_at_pos by (rewrite upd_length; lia); f_equal.
    apply nth_ext with (d := PrimFloat.zero) (d' := PrimFloat.zero);
      [rewrite !upd_length by (try rewrite upd_length; lia); now rewrite length_map, length_seq|].
    intros k Hk; rewrite !upd_length in Hk by (try rewrite upd_length; lia).
    rewrite upd_nth by (rewrite upd_length; lia).
    rewrite upd_nth, nth_map_seq by lia; rewrite Hrn by lia.
    unfold soft_value; nat_cases.
Qed.

Lemma soften_rows_unit (m : PrimFloat.float) (C : nat) (js : list nat) :
  2 <= C -> Forall (fun j => j < C) js ->
  soften_rows m C (map (unit_row C) js)
  = inl (map (fun j => map (soft_value m C j) (seq 0 C)) js).
Proof.
  intros HC; induction js as [|j js IH]; intros H; [reflexivity|].
  inversion H as [|? ? Hj Hjs]; subst; cbn [map soften_rows].
  rewrite soften_row_unit by assumption; rewrite IH by assumption; reflexivity.
Qed.

Lemma soften_onehot_rows (to_f32 : PrimFloat.float -> PrimFloat.float) (C : nat)
  (js : list nat) (m : PrimFloat.float) :
  2 <= C -> Forall (fun j => j < C) js ->
  soften_ordinal_labels to_f32 (map (unit_row C) js) m
  = inl (map (fun j => map (fun k => to_f32 (soft_value m C j k)) (seq 0 C)) js).
Proof.
  intros HC Hjs; unfold soften_ordinal_labels.
  destruct js as [|j js']; [reflexivity|].
  change (shape1 (map (unit_row C) (j :: js'))) with (length (unit_row C j)).
  rewrite length_unit_row, (soften_rows_unit m C (j :: js') HC Hjs), !map_map; f_equal.
  apply map_ext; intros j0; now rewrite map_map.
Qed.

(** Every entry of the softened row of class [j] off the class is [0.0],
    [m] or [m / 2.0]. *)
Lemma soft_value_off (m : PrimFloat.float) (C j k : nat) :
  k <> j ->
  In (soft_value m C j k) [PrimFloat.zero; m; PrimFloat.div m PrimFloat.two].
Proof.
  intros Hkj; unfold soft_value.
  replace (k =? j) with false by (symmetry; now apply Nat.eqb_neq).
  repeat match goal with |- context [if ?b then _ else _] => destruct b end;
    simpl; tauto.
Qed.

(** X1: on a batch of one-hot rows over [C >= 2] classes,
    [soften_ordinal_labels] succeeds and turns the row of class [j] into
    the float32 rounding of [1.0 - m] at [j], of [m] at the single
    neighbour of the first or last class, of [m / 2.0] at both neighbours
    of an inner class, and of [0.0] elsewhere; this holds for every [m]
    and whatever the rounding to float32. *)
Theorem soften_ordinal_labels_onehot (to_f32 : PrimFloat.float -> PrimFloat.float) (C : nat)
  (js : list nat) (m : PrimFloat.float) :
  2 <= C -> Forall (fun j => j < C) js ->
  soften_ordinal_labels to_f32 (map (unit_row C) js) m
  = inl (map (fun j => map (fun k => to_f32 (soft_value m C j k)) (seq 0 C)) js).
Proof. apply soften_onehot_rows. Qed.

(** X2: softening one-hot rows keeps their class ([np.argmax] of every
    softened row is the class of the original row) when the float32
    roundings of [0.0], [m] and [m / 2.0] are numbers below that of
    [1.0 - m]. *)
Theorem soften_ordinal_labels_keeps_class (to_f32 : PrimFloat.float -> PrimFloat.float)
  (C : nat) (js : list nat) (m : PrimFloat.float) :
  2 <= C -> Forall (fun j => j < C) js ->
  Forall (fun x => PrimFloat.is_nan x = false
                   /\ PrimFloat.leb x (to_f32 (PrimFloat.sub PrimFloat.one m)) = true
                   /\ PrimFloat.leb (to_f32 (PrimFloat.sub PrimFloat.one m)) x = false)
         (map to_f32 [PrimFloat.zero; m; PrimFloat.div m PrimFloat.two]) ->
  exists rows, soften_ordinal_labels to_f32 (map (unit_row C) js) m = inl rows
  /\ map argmax rows = map Some js.
Proof.
  intros HC Hjs Hv; eexists; split; [apply soften_onehot_rows; assumption|].
  rewrite map_map; apply map_ext_in; intros j Hj.
  rewrite Forall_forall in Hjs; specialize (Hjs j Hj).
  apply argmax_strict_max; rewrite length_map, length_seq; [exact Hjs|].
  intros k Hk Hkj; rewrite !nth_map_seq by lia.
  replace (soft_value m C j j) with (PrimFloat.sub PrimFloat.one m)
    by (unfold soft_value; now rewrite Nat.eqb_refl).
  rewrite Forall_forall in Hv; apply Hv, in_map, soft_value_off, Hkj.
Qed.

(** X3: [soften_ordinal_labels] returns an empty batch unchanged, raises
    an index error when the rows have a single column (it writes
    [labels_[l, 1]]) and a value error when they have none ([np.argmax] of
    an empty row). *)
Theorem soften_ordinal_labels_edges (to_f32 : PrimFloat.float -> PrimFloat.float)
  (m x : PrimFloat.float) (rest : list (list PrimFloat.float)) :
  soften_ordinal_labels to_f32 [] m = inl []
  /\ soften_ordinal_labels to_f32 ([x] :: rest) m = inr NpIndexError
  /\ soften_ordinal_labels to_f32 ([] :: rest) m = inr NpValueError.
Proof.
  split; [reflexivity|split; [|reflexivity]].
  unfold soften_ordinal_labels, soften_rows, soften_row, argmax.
  destruct (PrimFloat.is_nan x); reflexivity.
Qed.

(** Float literals for the examples. *)
Module FloatExamples.
Import PrimFloat.
(* The decimal literals below stand for their nearest float64, as in Python. *)
Local Set Warnings "-inexact-float".
(** [m = 0.05], the default of [soften_ordinal_labels]. *)
Definition m_default : PrimFloat.float := 0.05%float.
(** [0.95], [0.05] and [0.025] as float64 values: the entries of the
    softened rows before the float32 rounding. *)
Definition row0 : list PrimFloat.float := [0.95; 0.05; 0.0]%float.
Definition row1 : list PrimFloat.float := [0.025; 0.95; 0.025]%float.
Definition row2 : list PrimFloat.float := [0.0; 0.05; 0.95]%float.
End FloatExamples.

Lemma soften_ordinal_labels_onehot_witness :
  soften_ordinal_labels (fun x => x) (map (unit_row 3) [0; 1; 2]) FloatExamples.m_default
  = inl [FloatExamples.row0; FloatExamples.row1; FloatExamples.row2].
Proof.
  rewrite (soften_ordinal_labels_onehot (fun x => x) 3 [0; 1; 2] FloatExamples.m_default);
    [reflexivity | lia | repeat constructor; lia].
Defined.

Lemma soften_ordinal_labels_keeps_class_witness :
  exists rows, soften_ordinal_labels (fun x => x) (map (unit_row 4) [3; 0; 2])
                 FloatExamples.m_default = inl rows
  /\ map argmax rows = [Some 3; Some 0; Some 2].
Proof.
  apply (soften_ordinal_labels_keeps_class (fun x => x) 4 [3; 0; 2] FloatExamples.m_default);
    [lia | repeat constructor; lia | repeat constructor].
Defined.

(** ** Label statistics and [get_data_part] *)

Lemma in_insert_uniq (x y : Z) (xs : list Z) :
  In y (insert_uniq x xs) <-> y = x \/ In y xs.
Proof.
  split; [apply insert_uniq_in|].
  induction xs as [|z xs IH]; simpl; [intros [->|[]]; now left|].
  destruct (x <? z)%Z; [simpl; intros [->|H]; [now left|now right]|].
  destruct (x =? z)%Z eqn:E; [apply Z.eqb_eq in E; subst; simpl; intros [->|H]; [now left|exact H]|].
  simpl; intros H; destruct H as [->|[->|H]]; [right; apply IH; now left|now left|].
  right; apply IH; now right.
Qed.

Lemma in_unique (x : Z) (xs : list Z) : In x (unique xs) <-> In x xs.
Proof.
  unfold unique; induction xs as [|y xs IH]; simpl; [tauto|].
  rewrite in_insert_uniq, IH; intuition.
Qed.

Lemma unique_ssorted (xs : list Z) : StronglySorted Z.lt (unique xs).
Proof.
  unfold unique; induction xs as [|x xs IH]; simpl; [constructor|].
  now apply insert_uniq_ssorted.
Qed.

Lemma list_sum_cons (a : nat) (xs : list nat) : list_sum (a :: xs) = a + list_sum xs.
Proof. reflexivity. Qed.

Lemma list_sum_indicator (x : Z) (ts : list Z) :
  NoDup ts -> In x ts ->
  list_sum (map (fun t => if Z.eq_dec x t then 1 else 0) ts) = 1.
Proof.
  induction ts as [|t ts IH]; intros Hnd Hin; [contradiction|].
  inversion Hnd as [|? ? Hnot Hnd']; subst; cbn [map]; rewrite ?list_sum_cons.
  destruct (Z.eq_dec x t) as [E|Hne]; [subst x|].
  - enough (Z0 : list_sum (map (fun t0 => if Z.eq_dec t t0 then 1 else 0) ts) = 0) by lia.
    clear IH Hin Hnd Hnd'; induction ts as [|u ts IH']; [reflexivity|].
    cbn [map]; rewrite ?list_sum_cons; destruct (Z.eq_dec t u) as [E|_].
    + exfalso; apply Hnot; subst; now left.
    + rewrite IH'; [reflexivity|]; intros H; apply Hnot; now right.
  - destruct Hin as [->|Hin]; [contradiction|]; rewrite IH by assumption; reflexivity.
Qed.

Lemma list_sum_counts (ts l : list Z) :
  NoDup ts -> incl l ts ->
  list_sum (map (fun t => count_occ Z.eq_dec l t) ts) = length l.
Proof.
  intros Hnd; induction l as [|x l IH]; intros Hincl.
  - clear Hnd Hincl; induction ts as [|t ts IHt]; [reflexivity|].
    cbn [map]; rewrite list_sum_cons, IHt; reflexivity.
  - transitivity (list_sum (map (fun t => if Z.eq_dec x t then 1 else 0) ts)
                  + list_sum (map (fun t => count_occ Z.eq_dec l t) ts)).
    + clear IH Hincl Hnd; induction ts as [|t ts IHt]; [reflexivity|].
      cbn [map]; rewrite !list_sum_cons, IHt; cbn [count_occ].
      destruct (Z.eq_dec x t); lia.
    + rewrite (list_sum_indicator x ts Hnd) by (apply Hincl; now left).
      rewrite IH by (intros y Hy; apply Hincl; now right); reflexivity.
Qed.

(** X4: [__init__]'s label statistics: [label_types] is strictly
    increasing and holds exactly the values of [labels]; [label_counts] has
    one positive count per label type, and the counts add up to the number
    of samples. *)
Theorem label_statistics (d : Dataset) :
  StronglySorted Z.lt (label_types d)
  /\ (forall x, In x (label_types d) <-> In x (labels (src d)))
  /\ length (label_counts d) = num_labels d
  /\ Forall (fun c => 0 < c) (label_counts d)
  /\ list_sum (label_counts d) = length (labels (src d)).
Proof.
  split; [apply unique_ssorted|split; [intros; apply in_unique|split; [|split]]].
  - unfold label_counts, num_labels; apply length_map.
  - unfold label_counts; apply Forall_forall; intros c Hc.
    apply in_map_iff in Hc as [t [<- Ht]]; apply count_occ_In, in_unique, Ht.
  - apply list_sum_counts; [apply label_types_nodup|].
    intros x Hx; apply in_unique, Hx.
Qed.

Lemma onehot_unit (ts : list Z) (x : Z) (k : nat) :
  NoDup ts -> k < length ts -> nth k ts 0%Z = x ->
  map (fun t => if (x =? t)%Z then 1%Z else 0%Z) ts
  = map (fun k' => if k' =? k then 1%Z else 0%Z) (seq 0 (length ts)).
Proof.
  intros Hnd Hk Hx; apply (nth_ext _ _ 0%Z 0%Z); [now rewrite !length_map, length_seq|].
  intros i Hi; rewrite length_map in Hi.
  set (f := fun t => if (x =? t)%Z then 1%Z else 0%Z).
  set (g := fun k' => if k' =? k then 1%Z else 0%Z).
  rewrite (nth_indep (map f ts) 0%Z (f 0%Z)) by (now rewrite length_map).
  rewrite (nth_indep (map g (seq 0 (length ts))) 0%Z (g 0))
    by (now rewrite length_map, length_seq).
  rewrite (map_nth f).
  rewrite map_nth, seq_nth by exact Hi; cbn [Nat.add]; subst f g; cbv beta.
  destruct (Nat.eqb_spec i k) as [->|Hne]; [now rewrite <- Hx, Z.eqb_refl|].
  destruct (Z.eqb_spec x (nth i ts 0%Z)) as [E|]; [|reflexivity].
  exfalso; apply Hne; apply (proj1 (NoDup_nth ts 0%Z) Hnd); [exact Hi|exact Hk|congruence].
Qed.

(** X6: for distinct indices inside the data, [get_data_part] succeeds and
    returns six arrays with one row per requested index, and the [n]-th
    label row is the one-hot vector of length [num_labels] whose 1 is at
    the position, in [label_types], of the label of the [n]-th smallest
    requested index. *)
Theorem get_data_part_onehot (d : Dataset) (rows : list nat) :
  Forall (fun i => i < length (labels (src d))) rows -> NoDup rows ->
  exists p, get_data_part_call d rows = Ok p
  /\ length (d1 p) = length rows /\ length (d2 p) = length rows
  /\ length (d3 p) = length rows /\ length (d4 p) = length rows
  /\ length (img p) = length rows /\ length (l p) = length rows
  /\ forall n, n < length rows ->
     exists k, k < num_labels d
       /\ nth k (label_types d) 0%Z = label_at d (nth n (sorted rows) 0)
       /\ nth n (l p) [] = map (fun k' => if k' =? k then 1%Z else 0%Z) (seq 0 (num_labels d)).
Proof.
  intros Hrows Hnd; exists (get_data_part d rows); split.
  { unfold get_data_part_call; now rewrite (proj2 (fetch_error_none _ rows) (conj Hrows Hnd)). }
  pose proof (Permutation_length (sorted_perm rows)) as Hs.
  unfold get_data_part; cbn [d1 d2 d3 d4 img l]; rewrite !length_map, Hs.
  do 6 (split; [reflexivity|]).
  intros n Hn.
  set (i := nth n (sorted rows) 0).
  assert (Hi : i < length (labels (src d))).
  { rewrite Forall_forall in Hrows; apply Hrows.
    apply (Permutation_in _ (sorted_perm rows)), nth_In; lia. }
  assert (Hin : In (label_at d i) (label_types d))
    by (apply in_unique; unfold label_at; apply nth_In, Hi).
  destruct (In_nth _ _ 0%Z Hin) as (k & Hk & Hkx).
  exists k; split; [exact Hk|split; [exact Hkx|]].
  rewrite (nth_indep _ [] (onehot d (label_at d 0))) by (rewrite length_map; lia).
  rewrite (map_nth (fun i => onehot d (label_at d i))); fold i.
  unfold onehot, num_labels; apply onehot_unit; [apply label_types_nodup|exact Hk|exact Hkx].
Qed.

Lemma get_data_part_onehot_witness :
  exists p, get_data_part_call ex_dataset [9; 0; 4] = Ok p
  /\ l p = [[1; 0; 0]; [0; 1; 0]; [0; 0; 1]]%Z /\ length (d1 p) = 3.
Proof.
  assert (H : Forall (fun i => i < length (labels (src ex_dataset))) [9; 0; 4])
    by (repeat constructor; vm_compute; lia).
  assert (Hd : NoDup [9; 0; 4]) by (repeat constructor; simpl; intuition lia).
  destruct (get_data_part_onehot ex_dataset [9; 0; 4] H Hd) as (p & E & L1 & _).
  exists p; split; [exact E|split; [|exact L1]].
  vm_compute in E; injection E as <-; reflexivity.
Defined.

(** ** Iterators and sequential getters *)

Lemma ssorted_skipn (n : nat) (xs : list nat) :
  StronglySorted lt xs -> StronglySorted lt (skipn n xs).
Proof.
  revert xs; induction n as [|n IH]; intros xs H; [exact H|].
  destruct xs as [|x xs]; [constructor|]; apply StronglySorted_inv in H as [H _].
  now apply IH.
Qed.

Lemma ssorted_firstn (n : nat) (xs : list nat) :
  StronglySorted lt xs -> StronglySorted lt (firstn n xs).
Proof.
  revert xs; induction n as [|n IH]; intros xs H; [constructor|].
  destruct xs as [|x xs]; [constructor|]; apply StronglySorted_inv in H as [Hs Hf].
  cbn [firstn]; constructor; [now apply IH|].
  rewrite Forall_forall in *; intros y Hy; apply Hf, (in_firstn n), Hy.
Qed.

Lemma fetch_app (d : Dataset) (xs ys : list nat) :
  fetch_in_request_order d (xs ++ ys)
  = app_part (fetch_in_request_order d xs) (fetch_in_request_order d ys).
Proof. unfold fetch_in_request_order, app_part; cbn; now rewrite !map_app. Qed.

Lemma concat_parts_fetch (d : Dataset) (ss : list (list nat)) :
  concat_parts (map (fetch_in_request_order d) ss) = fetch_in_request_order d (concat ss).
Proof.
  induction ss as [|s ss IH]; [reflexivity|].
  cbn [map concat concat_parts fold_right]; fold (concat_parts (map (fetch_in_request_order d) ss)).
  now rewrite IH, fetch_app.
Qed.

Lemma get_data_part_ssorted (d : Dataset) (rows : list nat) :
  StronglySorted lt rows -> get_data_part d rows = fetch_in_request_order d rows.
Proof. intros H; now rewrite get_data_part_fetch, sorted_of_sorted. Qed.

Lemma slices_ssorted (b : nat) (part : list nat) :
  StronglySorted lt part -> Forall (StronglySorted lt) (batch_slices b part).
Proof.
  intros H; unfold batch_slices, slice; apply Forall_forall; intros s Hs.
  apply in_map_iff in Hs as [n [<- _]]; now apply ssorted_firstn, ssorted_skipn.
Qed.

Lemma concat_parts_slices (d : Dataset) (b : nat) (part : list nat) :
  1 <= b -> StronglySorted lt part ->
  concat_parts (map (get_data_part d) (batch_slices b part)) = get_data_part d part.
Proof.
  intros Hb H.
  rewrite (map_ext_Forall _ (fetch_in_request_order d)).
  - rewrite concat_parts_fetch, (proj1 (batch_slices_spec b part Hb)).
    symmetry; now apply get_data_part_ssorted.
  - refine (Forall_impl _ _ (slices_ssorted b part H)); intros s Hs.
    now apply get_data_part_ssorted.
Qed.

Lemma concat_map_vmap (d : Dataset) (ss : list (list nat)) :
  Forall (StronglySorted lt) ss ->
  concat (map (fun rows => map (vmap (src d)) (sorted rows)) ss) = map (vmap (src d)) (concat ss).
Proof.
  induction ss as [|s ss IH]; intros H; [reflexivity|].
  inversion H; subst; cbn [map concat]; rewrite map_app, IH by assumption.
  now rewrite sorted_of_sorted.
Qed.

(** X7: for [batch_num >= 1] and a strictly increasing test (resp.
    validation) partition, concatenating the batches yielded by
    [test_iterator] (resp. [validation_iterator]) gives exactly what
    [get_test_data] (resp. [get_validation_data]) returns, and the metadata
    rows yielded by [test_iterator] are those of the whole partition; none
    of these calls changes the state. *)
Theorem iterators_rebuild_partition_data (w : World) (b : nat) :
  1 <= b ->
  let d := wds w in
  (StronglySorted lt (test_part d) ->
   exists ys, test_iterator b w = Ok (ys, w)
     /\ get_test_data w = Ok (concat_parts (map fst ys), w)
     /\ concat (map snd ys) = map (vmap (src d)) (test_part d))
  /\ (StronglySorted lt (validation_part d) ->
      exists ys, validation_iterator b w = Ok (ys, w)
        /\ get_validation_data w = Ok (concat_parts ys, w)).
Proof.
  intros Hb d; split; intros Hs.
  - eexists; split; [now apply test_iterator_eq|].
    rewrite !map_map; cbn [fst snd]; split.
    + unfold get_test_data, bind, get_ds, ret; fold d.
      now rewrite concat_parts_slices.
    + rewrite concat_map_vmap by (now apply slices_ssorted).
      now rewrite (proj1 (batch_slices_spec b _ Hb)).
  - eexists; split; [now apply validation_iterator_eq|].
    unfold get_validation_data, bind, get_ds, ret; fold d.
    now rewrite concat_parts_slices.
Qed.

Lemma iterators_rebuild_partition_data_witness :
  let w := set_ds (set_test_part [0; 4; 5; 9; 11] ex_dataset) (ex_world 1) in
  StronglySorted lt (test_part (wds w))
  /\ exists ys, test_iterator 2 w = Ok (ys, w)
     /\ get_test_data w = Ok (concat_parts (map fst ys), w)
     /\ length ys = 3.
Proof.
  intros w.
  assert (H : StronglySorted lt (test_part (wds w)))
    by (repeat constructor; simpl; lia).
  split; [exact H|].
  destruct (proj1 (iterators_rebuild_partition_data w 2 ltac:(lia)) H) as (ys & E1 & E2 & _).
  exists ys; split; [exact E1|split; [exact E2|]].
  rewrite test_iterator_eq in E1 by lia; injection E1 as <-; reflexivity.
Defined.

Lemma seq_batch_last (part : Dataset -> list nat) (cur : Dataset -> nat)
  (setc : nat -> Dataset -> Dataset) (b : nat) (w : World) :
  length (part (wds w)) <= cur (wds w) + b ->
  seq_batch part cur setc b w
  = Ok (get_data_part (wds w) (skipn (cur (wds w)) (part (wds w))),
        set_ds (setc 0 (wds w)) w).
Proof.
  intros H; rewrite seq_batch_step.
  replace (length (part (wds w)) <=? cur (wds w) + b) with true
    by (symmetry; now apply Nat.leb_le).
  unfold slice; rewrite firstn_all2; [reflexivity|].
  rewrite length_skipn; lia.
Qed.

Lemma seq_batch_zero (part : Dataset -> list nat) (cur : Dataset -> nat)
  (setc : nat -> Dataset -> Dataset) (w : World) :
  setc (cur (wds w)) (wds w) = wds w -> cur (wds w) < length (part (wds w)) ->
  seq_batch part cur setc 0 w = Ok (get_data_part (wds w) [], w).
Proof.
  intros Hs H; rewrite seq_batch_step, Nat.add_0_r.
  replace (length (part (wds w)) <=? cur (wds w)) with false
    by (symmetry; now apply Nat.leb_gt).
  unfold slice; rewrite Nat.sub_diag, Hs, set_ds_wds; reflexivity.
Qed.

(** X8: a sequential getter whose batch reaches the end of its partition
    returns the rest of the partition from the cursor (a short batch, never
    wrapped around) and resets the cursor to 0; with [batch_size = 0] and a
    cursor inside the partition, it returns an empty batch and leaves the
    world unchanged, so the cursor never advances. *)
Theorem sequential_batch_edges (w : World) (b : nat) :
  let d := wds w in
  (length (train_part d) <= batch_ind d + b ->
   get_train_batch b w
   = Ok (get_data_part d (skipn (batch_ind d) (train_part d)), set_ds (set_batch_ind 0 d) w))
  /\ (length (validation_part d) <= batch_ind_valid d + b ->
      get_validation_batch b w
      = Ok (get_data_part d (skipn (batch_ind_valid d) (validation_part d)),
            set_ds (set_batch_ind_valid 0 d) w))
  /\ (length (test_part d) <= batch_ind_test d + b ->
      get_test_batch b w
      = Ok (get_data_part d (skipn (batch_ind_test d) (test_part d)),
            set_ds (set_batch_ind_test 0 d) w))
  /\ (batch_ind d < length (train_part d) -> get_train_batch 0 w = Ok (get_data_part d [], w))
  /\ (batch_ind_valid d < length (validation_part d) ->
      get_validation_batch 0 w = Ok (get_data_part d [], w))
  /\ (batch_ind_test d < length (test_part d) ->
      get_test_batch 0 w = Ok (get_data_part d [], w)).
Proof.
  intros d; split; [|split; [|split; [|split; [|split]]]]; intros H.
  - rewrite get_train_batch_seq; now apply seq_batch_last.
  - rewrite get_validation_batch_seq; now apply seq_batch_last.
  - rewrite get_test_batch_seq; now apply seq_batch_last.
  - rewrite get_train_batch_seq; apply seq_batch_zero; [subst d; now destruct (wds w)|exact H].
  - rewrite get_validation_batch_seq; apply seq_batch_zero; [subst d; now destruct (wds w)|exact H].
  - rewrite get_test_batch_seq; apply seq_batch_zero; [subst d; now destruct (wds w)|exact H].
Qed.

Lemma sequential_batch_edges_witness :
  let w := set_ds (set_batch_ind 10 (set_train_part (seq 0 12) ex_dataset)) (ex_world 1) in
  get_train_batch 4 w = Ok (get_data_part (wds w) [10; 11], set_ds (set_batch_ind 0 (wds w)) w)
  /\ get_train_batch 0 w = Ok (get_data_part (wds w) [], w).
Proof.
  intros w; destruct (sequential_batch_edges w 4) as (E1 & _ & _ & _ & _ & _).
  destruct (sequential_batch_edges w 0) as (_ & _ & _ & E2 & _ & _).
  split; [rewrite E1 by (simpl; lia); reflexivity|apply E2; simpl; lia].
Defined.

(** ** Balanced getters *)

Lemma where_eq_bounds (d : Dataset) (lab : Z) (j0 : nat) (part : list nat) :
  StronglySorted lt (where_eq d lab j0 part) /\ Forall (fun j => j0 <= j) (where_eq d lab j0 part).
Proof.
  revert j0; induction part as [|i part IH]; intros j0; [split; constructor|].
  cbn [where_eq]; destruct (IH (S j0)) as [Hs Hf].
  destruct (label_at d i =? lab)%Z.
  - split; [constructor; [exact Hs|]|constructor; [lia|]];
      refine (Forall_impl _ _ Hf); intros; lia.
  - split; [exact Hs|]; refine (Forall_impl _ _ Hf); intros; lia.
Qed.

Lemma nodup_firstn {A} (n : nat) (xs : list A) : NoDup xs -> NoDup (firstn n xs).
Proof.
  intros H; rewrite <- (firstn_skipn n xs) in H; exact (NoDup_app_remove_r _ _ H).
Qed.

Lemma nodup_map_nth (part js : list nat) :
  NoDup part -> NoDup js -> (forall j, In j js -> j < length part) ->
  NoDup (map (fun j => nth j part 0) js).
Proof.
  intros Hp; induction js as [|j js IH]; intros Hj Hlt; [constructor|].
  inversion Hj as [|? ? Hnot Hj']; subst; cbn [map]; constructor.
  - intros Hin; apply in_map_iff in Hin as [j' [E Hj'in]].
    assert (j' = j).
    { apply (proj1 (NoDup_nth part 0) Hp); [apply Hlt; now right|apply Hlt; now left|exact E]. }
    subst; contradiction.
  - apply IH; [exact Hj'|intros; apply Hlt; now right].
Qed.

(** The rows drawn for one class, in general. *)
Lemma class_chunk_gen (d : Dataset) (part : list nat) (lab : Z) (lb : nat) (r : Z) :
  let c := map (fun j => nth j part 0)
               (firstn lb (fst (permutation r (where_eq d lab 0 part)))) in
  length c = Nat.min lb (length (class_members d lab part))
  /\ (NoDup part -> NoDup c).
Proof.
  intros c.
  pose proof (permutation_perm r (where_eq d lab 0 part)) as HP.
  split.
  - subst c; rewrite length_map, length_firstn, (Permutation_length HP), where_eq_length.
    reflexivity.
  - intros Hnd; apply nodup_map_nth; [exact Hnd| |].
    + apply nodup_firstn; apply (Permutation_NoDup (Permutation_sym HP)).
      apply ssorted_nodup, where_eq_bounds.
    + intros j Hj; apply in_firstn in Hj.
      apply (Permutation_in _ HP), where_eq_spec in Hj; lia.
Qed.

Lemma balanced_rows_gen (d : Dataset) (part : list nat) (lb : nat) (types : list Z) (r : Z) :
  NoDup types ->
  let rows := fst (balanced_rows d part lb types r) in
  incl rows part /\ Forall (fun i => In (label_at d i) types) rows
  /\ (forall lab, In lab types ->
        length (class_members d lab rows) = Nat.min lb (length (class_members d lab part)))
  /\ (NoDup part -> NoDup rows).
Proof.
  revert r; induction types as [|lab ts IH]; intros r Hnd rows.
  - subst rows; simpl; repeat split; [intros x [] | constructor | intros _ [] | constructor].
  - inversion Hnd as [|? ? Hnotin Hnd']; subst.
    subst rows; cbn [balanced_rows].
    destruct (permutation r (where_eq d lab 0 part)) as [p r1] eqn:Ep.
    destruct (balanced_rows d part lb ts r1) as [rest r2] eqn:Eb.
    cbn [fst].
    pose proof (class_chunk d part lab lb r) as (Ci & Cf & _).
    pose proof (class_chunk_gen d part lab lb r) as (Cl & Cn).
    rewrite Ep in Ci, Cf, Cl, Cn; cbn [fst] in Ci, Cf, Cl, Cn.
    pose proof (IH r1 Hnd') as (Ri & Rf & Rc & Rn); rewrite Eb in Ri, Rf, Rc, Rn;
      cbn [fst] in Ri, Rf, Rc, Rn.
    set (c := map (fun j => nth j part 0) (firstn lb p)) in *.
    split; [|split; [|split]].
    + intros x Hx; apply in_app_or in Hx as [Hx|Hx]; [now apply Ci | now apply Ri].
    + apply Forall_app; split.
      * refine (Forall_impl _ _ Cf); intros i Hi; rewrite Hi; now left.
      * refine (Forall_impl _ _ Rf); intros i Hi; now right.
    + intros lab0 Hlab0; rewrite class_members_app, length_app.
      destruct (Z.eq_dec lab0 lab) as [->|Hne].
      * rewrite class_members_all by exact Cf.
        rewrite (class_members_none d lab rest); [simpl; rewrite Cl; lia|].
        refine (Forall_impl _ _ Rf); intros i Hi E; rewrite E in Hi; contradiction.
      * rewrite class_members_none; [simpl; apply Rc|].
        -- destruct Hlab0 as [E|H]; [congruence|exact H].
        -- refine (Forall_impl _ _ Cf); intros i Hi E; congruence.
    + intros Hp; apply NoDup_app; [now apply Cn|now apply Rn|].
      intros x Hx Hx'.
      rewrite Forall_forall in Cf, Rf; specialize (Cf x Hx); specialize (Rf x Hx').
      rewrite Cf in Rf; contradiction.
Qed.

Lemma get_balanced_validation_batch_eq (b : nat) (w : World) :
  0 < num_labels (wds w) ->
  get_balanced_validation_batch b w
  = let '(rows, r') := balanced_rows (wds w) (validation_part (wds w))
                         (b / num_labels (wds w)) (label_types (wds w)) (rng w) in
    Ok (get_data_part (wds w) rows, {| wds := wds w; rng := r'; files := files w |}).
Proof.
  intros Hpos; unfold get_balanced_validation_batch, bind, get_ds, get_rng.
  unfold num_labels in *.
  replace (length (label_types (wds w)) =? 0) with false by (symmetry; apply Nat.eqb_neq; lia).
  now destruct (balanced_rows _ _ _ _ _).
Qed.

(** X9: when there is at least one label type, the balanced getters draw,
    for each label type, [min (batch_size // num_labels, members in the
    partition)] samples of that type, all from the partition (train resp.
    validation), and draw no sample twice when the partition has no
    duplicates. *)
Theorem balanced_batch_rows (w : World) (b : nat) :
  0 < num_labels (wds w) ->
  let d := wds w in
  let lb := b / num_labels d in
  (exists rows w', get_balanced_train_batch b w = Ok (get_data_part d rows, w')
     /\ incl rows (train_part d)
     /\ (forall lab, In lab (label_types d) ->
           length (class_members d lab rows)
           = Nat.min lb (length (class_members d lab (train_part d))))
     /\ (NoDup (train_part d) -> NoDup rows))
  /\ (exists rows w', get_balanced_validation_batch b w = Ok (get_data_part d rows, w')
     /\ incl rows (validation_part d)
     /\ (forall lab, In lab (label_types d) ->
           length (class_members d lab rows)
           = Nat.min lb (length (class_members d lab (validation_part d))))
     /\ (NoDup (validation_part d) -> NoDup rows)).
Proof.
  intros Hpos d lb; split.
  - rewrite get_balanced_train_batch_eq by exact Hpos.
    pose proof (balanced_rows_gen d (train_part d) lb (label_types d) (rng w)
                  (label_types_nodup d)) as (Hi & _ & Hc & Hn).
    subst d lb; destruct (balanced_rows _ _ _ _ _) as [rows r']; cbn [fst] in *.
    eexists rows, _; split; [reflexivity|auto].
  - rewrite get_balanced_validation_batch_eq by exact Hpos.
    pose proof (balanced_rows_gen d (validation_part d) lb (label_types d) (rng w)
                  (label_types_nodup d)) as (Hi & _ & Hc & Hn).
    subst d lb; destruct (balanced_rows _ _ _ _ _) as [rows r']; cbn [fst] in *.
    eexists rows, _; split; [reflexivity|auto].
Qed.

Lemma balanced_batch_rows_witness :
  let w := set_ds (set_train_part [0; 1; 4; 5; 6; 7; 8] ex_dataset) (ex_world 1) in
  0 < num_labels (wds w)
  /\ exists rows w', get_balanced_train_batch 9 w = Ok (get_data_part (wds w) rows, w')
     /\ length (class_members (wds w) 0%Z rows) = 2
     /\ length (class_members (wds w) 1%Z rows) = 3
     /\ length (class_members (wds w) 2%Z rows) = 1.
Proof.
  intros w; assert (H : 0 < num_labels (wds w)) by (vm_compute; lia).
  split; [exact H|].
  destruct (proj1 (balanced_batch_rows w 9 H)) as (rows & w' & E & _ & Hc & _).
  exists rows, w'; split; [exact E|].
  rewrite !Hc by (vm_compute; tauto); vm_compute; repeat split.
Defined.

Lemma balanced_rows_zero (d : Dataset) (part : list nat) (types : list Z) (r : Z) :
  fst (balanced_rows d part 0 types r) = [].
Proof.
  revert r; induction types as [|lab ts IH]; intros r; [reflexivity|].
  cbn [balanced_rows]; destruct (permutation r (where_eq d lab 0 part)) as [p r1].
  specialize (IH r1); destruct (balanced_rows d part 0 ts r1) as [rest r2].
  cbn [fst] in *; now subst.
Qed.

(** X10: with no labelled sample the balanced getters raise
    [ZeroDivisionError]; with [batch_size < num_labels] they return the data
    of no sample. *)
Theorem balanced_batch_edges (w : World) (b : nat) :
  (labels (src (wds w)) = [] ->
   get_balanced_train_batch b w = Raise ZeroDivisionError
   /\ get_balanced_validation_batch b w = Raise ZeroDivisionError)
  /\ (b < num_labels (wds w) ->
      exists w1 w2, get_balanced_train_batch b w = Ok (get_data_part (wds w) [], w1)
        /\ get_balanced_validation_batch b w = Ok (get_data_part (wds w) [], w2)).
Proof.
  split; intros H.
  - unfold get_balanced_train_batch, get_balanced_validation_batch, bind, get_ds,
      label_types; rewrite H; split; reflexivity.
  - assert (Hz : b / num_labels (wds w) = 0) by (apply Nat.div_small; exact H).
    rewrite get_balanced_train_batch_eq, get_balanced_validation_batch_eq by lia.
    rewrite Hz.
    pose proof (balanced_rows_zero (wds w) (train_part (wds w)) (label_types (wds w)) (rng w)) as Z1.
    pose proof (balanced_rows_zero (wds w) (validation_part (wds w)) (label_types (wds w)) (rng w))
      as Z2.
    destruct (balanced_rows (wds w) (train_part (wds w)) 0 _ _) as [r1 s1].
    destruct (balanced_rows (wds w) (validation_part (wds w)) 0 _ _) as [r2 s2].
    cbn [fst] in Z1, Z2; subst; eexists _, _; split; reflexivity.
Qed.

Lemma balanced_batch_edges_witness :
  (exists w1, get_balanced_train_batch 2 ex_full_train_world
              = Ok (get_data_part (wds ex_full_train_world) [], w1))
  /\ get_balanced_train_batch 2
       {| wds := init (codes (src ex_dataset)) [] (vmap (src ex_dataset))
                   (gsv_lat (src ex_dataset)) (gsv_lng (src ex_dataset))
                   (sat_patch (src ex_dataset)) "decile" []; rng := 1; files := [] |}
     = Raise ZeroDivisionError.
Proof.
  destruct (proj2 (balanced_batch_edges ex_full_train_world 2) ltac:(vm_compute; lia))
    as (w1 & w2 & E & _).
  split; [exists w1; exact E|].
  apply (proj1 (balanced_batch_edges _ 2)); reflexivity.
Defined.

(** ** Prediction export *)

Lemma write_pred_matrix_outcome (d : Dataset) (srows : list nat) (preds : list Z)
  (fname : string) (w : World) :
  match write_pred_matrix d srows preds fname w with
  | Raise e => e = ValueError /\ length preds <> length srows
  | Ok (_, w') =>
      length preds = length srows /\ wds w' = wds w /\ rng w' = rng w
      /\ lookup_file fname (files w')
         = Some (FTable {| header := pred_header d;
                           rows_of := map (fun '(i, p) => pred_row d i p) (combine srows preds) |})
      /\ (forall n, n <> fname -> lookup_file n (files w') = lookup_file n (files w))
  end.
Proof.
  unfold write_pred_matrix.
  destruct (Nat.eqb_spec (length preds) (length srows)) as [E|E]; cbn [negb].
  - cbn [write_file wds rng files]; split; [exact E|split; [reflexivity|split; [reflexivity|split]]].
    + apply lookup_file_same.
    + intros n Hn; apply lookup_file_other; intros E'; apply Hn; symmetry; exact E'.
  - split; [reflexivity|exact E].
Qed.

(** X11: [write_preds] (resp. [write_preds_validation]) raises
    [ValueError] exactly when the number of predictions differs from the
    size of the test (resp. validation) partition; otherwise it leaves the
    dataset and the random state alone, the file [fname] then reads back as
    the prediction table over the sorted partition, and every other file is
    unchanged. *)
Theorem write_preds_outcome (w : World) (preds : list Z) (fname : string) :
  let d := wds w in
  match write_preds preds fname w with
  | Raise e => e = ValueError /\ length preds <> length (test_part d)
  | Ok (_, w') =>
      length preds = length (test_part d) /\ wds w' = d /\ rng w' = rng w
      /\ lookup_file fname (files w')
         = Some (FTable {| header := pred_header d;
                           rows_of := map (fun '(i, p) => pred_row d i p)
                                          (combine (sorted (test_part d)) preds) |})
      /\ (forall n, n <> fname -> lookup_file n (files w') = lookup_file n (files w))
  end
  /\ match write_preds_validation preds fname w with
     | Raise e => e = ValueError /\ length preds <> length (validation_part d)
     | Ok (_, w') =>
         length preds = length (validation_part d) /\ wds w' = d /\ rng w' = rng w
         /\ lookup_file fname (files w')
            = Some (FTable {| header := pred_header d;
                              rows_of := map (fun '(i, p) => pred_row d i p)
                                             (combine (sorted (validation_part d)) preds) |})
         /\ (forall n, n <> fname -> lookup_file n (files w') = lookup_file n (files w))
     end.
Proof.
  intros d; unfold write_preds, write_preds_validation, bind, get_ds; fold d.
  pose proof (Permutation_length (sorted_perm (test_part d))) as Ht.
  pose proof (Permutation_length (sorted_perm (validation_part d))) as Hv.
  pose proof (write_pred_matrix_outcome d (sorted (test_part d)) preds fname w) as O1.
  pose proof (write_pred_matrix_outcome d (sorted (validation_part d)) preds fname w) as O2.
  rewrite Ht in O1; rewrite Hv in O2; split; assumption.
Qed.

(** ** [pick_label] *)

Section Keeps.
Variable Rd : Dataset -> Dataset -> Prop.
Hypothesis Rd_refl : forall d, Rd d d.
Hypothesis Rd_trans : forall d1 d2 d3, Rd d1 d2 -> Rd d2 d3 -> Rd d1 d3.

Lemma keeps_ret {A} (a : A) : keeps Rd (ret a).
Proof. intros w x w' H; injection H as _ <-; split; [apply Rd_refl|now exists []]. Qed.

Lemma keeps_raise {A} (e : PyErr) : keeps Rd (@raise A e).
Proof. intros w x w' H; discriminate. Qed.

Lemma keeps_get_ds : keeps Rd get_ds.
Proof. intros w x w' H; injection H as _ <-; split; [apply Rd_refl|now exists []]. Qed.

Lemma keeps_preserves {A} (m : M A) : preserves m -> keeps Rd m.
Proof.
  intros Hm w x w' H; destruct (Hm _ _ _ H) as [Hd Hf]; rewrite Hd, Hf.
  split; [apply Rd_refl|now exists []].
Qed.

Lemma keeps_modify (f : Dataset -> Dataset) :
  (forall d, Rd d (f d)) -> keeps Rd (modify_ds f).
Proof. intros Hf w x w' H; injection H as _ <-; split; [apply Hf|now exists []]. Qed.

Lemma keeps_write_file (n : string) (x : File) : keeps Rd (write_file n x).
Proof.
  intros w u w' H; injection H as _ <-; split; [apply Rd_refl|now exists [(n, x)]].
Qed.

Lemma keeps_read_part (n : string) : keeps Rd (read_part n).
Proof.
  intros w x w' H; unfold read_part in H.
  destruct (lookup_file n (files w)) as [[]|]; try discriminate.
  injection H as _ <-; split; [apply Rd_refl|now exists []].
Qed.

Lemma keeps_read_folds (n : string) : keeps Rd (read_folds n).
Proof.
  intros w x w' H; unfold read_folds in H.
  destruct (lookup_file n (files w)) as [[]|]; try discriminate.
  injection H as _ <-; split; [apply Rd_refl|now exists []].
Qed.

Lemma keeps_bind {A B} (m : M A) (k : A -> M B) :
  keeps Rd m -> (forall a, keeps Rd (k a)) -> keeps Rd (bind m k).
Proof.
  intros Hm Hk w x w' H; unfold bind in H.
  destruct (m w) as [[a w1]|] eqn:E; [|discriminate].
  destruct (Hm _ _ _ E) as [R1 [fs1 F1]]; destruct (Hk a _ _ _ H) as [R2 [fs2 F2]].
  split; [eapply Rd_trans; eassumption|].
  exists (fs2 ++ fs1); rewrite F2, F1, app_assoc; reflexivity.
Qed.

Lemma keeps_if {A} (b : bool) (m1 m2 : M A) :
  keeps Rd m1 -> keeps Rd m2 -> keeps Rd (if b then m1 else m2).
Proof. destruct b; auto. Qed.

Lemma keeps_assign_train_part (d : Dataset) (tr0 : list nat) (psize : Q) :
  (forall p d, Rd d (set_train_part p d)) -> keeps Rd (assign_train_part d tr0 psize).
Proof.
  intros Ht; unfold assign_train_part; apply keeps_if.
  - apply keeps_bind; [apply keeps_preserves, decimate_spec|intros; apply keeps_modify, Ht].
  - apply keeps_modify, Ht.
Qed.
End Keeps.

Lemma same_frame_refl (d : Dataset) : same_frame d d.
Proof. repeat split. Qed.

Lemma same_frame_trans (d1 d2 d3 : Dataset) :
  same_frame d1 d2 -> same_frame d2 d3 -> same_frame d1 d3.
Proof.
  intros (A1 & B1 & C1 & D1) (A2 & B2 & C2 & D2); repeat split; congruence.
Qed.


(** X12: whenever it succeeds, in any mode, [pick_label] has not changed
    the data read by [__init__] nor the three batch cursors, and its only
    effect on the files is writing new ones in front of the old ones;
    the train/validation/test mode keeps [kpartitions], and the two
    train/test modes also keep [validation_part]. *)
Theorem pick_label_frame (k : SplitKind) (pg : Z) (f : string) (seed : option Z) :
  keeps (fun d d' => same_frame d d'
           /\ match k with
              | KFold _ _ _ => True
              | TrainValTest _ _ _ => kpartitions d' = kpartitions d
              | TrainTest _ _ | TrainTestByClass _ _ =>
                  kpartitions d' = kpartitions d /\ validation_part d' = validation_part d
              end)
        (pick_label k pg f seed).
Proof.
  destruct k as [kn kp v|ts vs ps|ts ps|ts ps]; cbn [pick_label];
    [unfold CrossValidation.pick_label|unfold TVT.pick_label
    |unfold TT.pick_label, TT.pick_label_with|unfold TT_byclass.pick_label, TT.pick_label_with];
  match goal with |- keeps ?R _ =>
    assert (Rr : forall d, R d d) by (intros; repeat split);
    assert (Rt : forall d1 d2 d3, R d1 d2 -> R d2 d3 -> R d1 d3)
      by (intros d1 d2 d3 [F1 K1] [F2 K2];
          split; [eapply same_frame_trans; eassumption|intuition congruence])
  end;
  repeat (cbv beta iota in *; match goal with
  | x : _ * _ |- _ => destruct x
  | |- keeps _ (bind _ _) => apply (keeps_bind _ Rt); [|intros ?]
  | |- keeps _ (if _ then _ else _) => apply keeps_if
  | |- keeps _ (ret _) => apply (keeps_ret _ Rr)
  | |- keeps _ (raise _) => apply keeps_raise
  | |- keeps _ get_ds => apply (keeps_get_ds _ Rr)
  | |- keeps _ (write_file _ _) => apply (keeps_write_file _ Rr)
  | |- keeps _ (read_part _) => apply (keeps_read_part _ Rr)
  | |- keeps _ (read_folds _) => apply (keeps_read_folds _ Rr)
  | |- keeps _ (modify_ds _) => apply keeps_modify; intros ?
  | |- keeps _ (partition_stratified _ _ _) =>
      apply (keeps_preserves _ Rr), preserves_partition_stratified
  | |- keeps _ (partition_stratified_validation _ _ _ _) =>
      apply (keeps_preserves _ Rr), preserves_partition_stratified_validation
  | |- keeps _ (partition_stratified_kfold _ _ _) =>
      apply (keeps_preserves _ Rr), preserves_partition_stratified_kfold
  | |- keeps _ (partition_by_class _ _ _) =>
      apply (keeps_preserves _ Rr), preserves_partition_by_class
  | |- keeps _ (decimate_partition_stratified _ _ _) =>
      apply (keeps_preserves _ Rr), decimate_spec
  | |- keeps _ (get_partition_stratified_kfold _ _) => unfold get_partition_stratified_kfold
  | |- keeps _ (assign_train_part _ _ _) => unfold assign_train_part
  | |- keeps _ (CrossValidation.generate _ _ _ _) => unfold CrossValidation.generate
  | |- keeps _ (CrossValidation.load _) => unfold CrossValidation.load
  | |- keeps _ (CrossValidation.assign_parts _ _ _ _) => unfold CrossValidation.assign_parts
  | |- keeps _ (TVT.generate _ _ _ _ _) => unfold TVT.generate
  | |- keeps _ (TVT.load _) => unfold TVT.load
  | |- keeps _ (TT.generate _ _ _) => unfold TT.generate
  | |- keeps _ (TT.load _) => unfold TT.load
  end);
  repeat split.
Qed.

Lemma pick_label_frame_witness :
  let k := TrainTest (1 # 2) 1 in
  pick_label k 1 "part" (Some 5%Z) (ex_world 1) = Ok (tt, ex_gen_world k)
  /\ same_frame (wds (ex_world 1)) (wds (ex_gen_world k))
  /\ validation_part (wds (ex_gen_world k)) = validation_part (wds (ex_world 1)).
Proof.
  intros k.
  assert (E : pick_label k 1 "part" (Some 5%Z) (ex_world 1) = Ok (tt, ex_gen_world k))
    by (vm_compute; reflexivity).
  destruct (pick_label_frame k 1 "part" (Some 5%Z) _ _ _ E) as [[F [_ V]] _].
  split; [exact E|split; [exact F|exact V]].
Defined.

(** X13: in load mode ([part_gen <> 1]) [pick_label] raises [IOError] when
    one of the partition files it reads is missing: [part_file] for k-fold,
    [part_file + '_train' / '_validation' / '_test'] for the others. *)
Theorem pick_label_load_missing (k : SplitKind) (pg : Z) (f : string) (seed : option Z)
  (w : World) :
  pg <> 1%Z ->
  match k with
  | KFold _ _ _ => lookup_file f (files w) = None
  | TrainValTest _ _ _ =>
      lookup_file (f ++ sfx_train) (files w) = None
      \/ lookup_file (f ++ sfx_validation) (files w) = None
      \/ lookup_file (f ++ sfx_test) (files w) = None
  | TrainTest _ _ | TrainTestByClass _ _ =>
      lookup_file (f ++ sfx_train) (files w) = None
      \/ lookup_file (f ++ sfx_test) (files w) = None
  end ->
  pick_label k pg f seed w = Raise IOError.
Proof.
  intros Hpg Hmiss.
  assert (Hg : (pg =? 1)%Z = false) by (now apply Z.eqb_neq).
  destruct k as [kn kp v|ts vs ps|ts ps|ts ps]; cbn [pick_label];
    [unfold CrossValidation.pick_label|unfold TVT.pick_label
    |unfold TT.pick_label, TT.pick_label_with|unfold TT_byclass.pick_label, TT.pick_label_with];
    unfold bind at 1, get_ds; rewrite Hg.
  1: unfold CrossValidation.load, bind, read_folds; now rewrite Hmiss.
  all: unfold TVT.load, TT.load, bind, read_part, modify_ds;
    repeat (cbv beta iota; cbn [files set_ds];
            match goal with |- context [lookup_file ?n (files ?w0)] =>
              let E := fresh "E" in destruct (lookup_file n (files w0)) as [[]|] eqn:E end);
    try reflexivity; exfalso; intuition congruence.
Qed.

Lemma pick_label_load_missing_witness :
  pick_label (TrainValTest (6 # 10) (2 # 10) 1) 0 "part" None
    {| wds := ex_dataset; rng := 1;
       files := [("part_train"%string, FPart [0; 1]); ("part_test"%string, FPart [2])] |}
  = Raise IOError.
Proof.
  apply pick_label_load_missing; [discriminate|].
  right; left; reflexivity.
Defined.

(** X14: in load mode with [psize >= 1], the train/test modes set the
    train and test partitions to the contents of [part_file + '_train'] and
    [part_file + '_test'] (and the train/validation/test mode also the
    validation partition to [part_file + '_validation']), and change nothing
    else. *)
Theorem pick_label_load_exact (f : string) (ts vs ps : Q) (seed : option Z) (pg : Z)
  (w : World) (tr0 va te : list nat) :
  pg <> 1%Z -> (1 <= ps)%Q ->
  lookup_file (f ++ sfx_train) (files w) = Some (FPart tr0) ->
  lookup_file (f ++ sfx_test) (files w) = Some (FPart te) ->
  TT.pick_label pg f ts ps seed w
    = Ok (tt, set_ds (set_train_part tr0 (set_test_part te (wds w))) w)
  /\ TT_byclass.pick_label pg f ts ps seed w
    = Ok (tt, set_ds (set_train_part tr0 (set_test_part te (wds w))) w)
  /\ (lookup_file (f ++ sfx_validation) (files w) = Some (FPart va) ->
      TVT.pick_label pg f ts vs ps seed w
      = Ok (tt, set_ds (set_train_part tr0 (set_test_part te (set_validation_part va (wds w)))) w)).
Proof.
  intros Hpg Hps H1 H2.
  assert (Hg : (pg =? 1)%Z = false) by (now apply Z.eqb_neq).
  assert (Hq : Qltb ps 1 = false)
    by (unfold Qltb; apply negb_false_iff, Qle_bool_iff, Hps).
  split; [|split; [|intros H3]].
  - unfold TT.pick_label, TT.pick_label_with, bind at 1, get_ds; rewrite Hg.
    unfold bind at 1; rewrite (TT_load_spec f w tr0 te H1 H2).
    unfold assign_train_part; rewrite Hq; reflexivity.
  - unfold TT_byclass.pick_label, TT.pick_label_with, bind at 1, get_ds; rewrite Hg.
    unfold bind at 1; rewrite (TT_load_spec f w tr0 te H1 H2).
    unfold assign_train_part; rewrite Hq; reflexivity.
  - unfold TVT.pick_label, bind at 1, get_ds; rewrite Hg.
    unfold bind at 1; rewrite (TVT_load_spec f w tr0 va te H1 H3 H2).
    unfold assign_train_part; rewrite Hq; reflexivity.
Qed.

Lemma pick_label_load_exact_witness :
  let w := {| wds := ex_dataset; rng := 1;
              files := [("part_test"%string, FPart [2; 6; 10]);
                        ("part_train"%string, FPart [0; 1; 4; 5; 8; 9])] |} in
  TT.pick_label 0 "part" (1 # 2) 1 None w
  = Ok (tt, set_ds (set_train_part [0; 1; 4; 5; 8; 9] (set_test_part [2; 6; 10] ex_dataset)) w).
Proof.
  intros w; apply (pick_label_load_exact "part" (1 # 2) (1 # 2) 1 None 0 w _ [] _);
    [discriminate|apply Qle_refl|reflexivity|reflexivity].
Defined.

(** X15: after a successful generation-mode [pick_label], the partition
    files hold the dataset's partitions: the folds for k-fold, the test (and
    validation) partition for the other modes, and the train partition too
    when [psize >= 1]. *)
Theorem pick_label_generate_files (k : SplitKind) (f : string) (seed : option Z)
  (w w' : World) :
  pick_label k 1 f seed w = Ok (tt, w') ->
  match k with
  | KFold _ _ _ => lookup_file f (files w') = Some (FFolds (kpartitions (wds w')))
  | TrainValTest _ _ ps =>
      lookup_file (f ++ sfx_validation) (files w') = Some (FPart (validation_part (wds w')))
      /\ lookup_file (f ++ sfx_test) (files w') = Some (FPart (test_part (wds w')))
      /\ ((1 <= ps)%Q ->
          lookup_file (f ++ sfx_train) (files w') = Some (FPart (train_part (wds w'))))
  | TrainTest _ ps | TrainTestByClass _ ps =>
      lookup_file (f ++ sfx_test) (files w') = Some (FPart (test_part (wds w')))
      /\ ((1 <= ps)%Q ->
          lookup_file (f ++ sfx_train) (files w') = Some (FPart (train_part (wds w'))))
  end.
Proof.
  intros H.
  assert (Hq : forall ps, (1 <= ps)%Q -> Qltb ps 1 = false)
    by (intros ps Hps; unfold Qltb; apply negb_false_iff, Qle_bool_iff, Hps).
  destruct k as [kn kp v|ts vs ps|ts ps|ts ps]; cbn [pick_label] in H.
  - unfold CrossValidation.pick_label, bind at 1, get_ds in H; cbn [Z.eqb Pos.eqb] in H.
    unfold bind in H.
    destruct (CrossValidation.generate (wds w) f kn seed w) as [[folds wa]|] eqn:G;
      [|discriminate].
    destruct (CV_generate_spec _ f kn seed w wa folds G) as (Hwa & L).
    destruct (assign_parts_spec _ _ _ _ _ _ _ H) as (te & tr0 & Hall).
    destruct (Hall wa) as (tr & va & w1 & E1 & D1 & F1 & _).
    rewrite E1 in H; injection H as <-.
    rewrite F1, D1, Hwa; exact L.
  - unfold TVT.pick_label, bind at 1, get_ds in H; cbn [Z.eqb Pos.eqb] in H.
    unfold bind in H.
    destruct (TVT.generate (wds w) f ts vs seed w) as [[tr0 wa]|] eqn:G; [|discriminate].
    destruct (TVT_generate_spec _ f ts vs seed w wa tr0 G) as (va & te & Hwa & L1 & L2 & L3).
    destruct (assign_train_part_spec _ _ _ _ _ _ H wa) as (tr & w1 & E1 & D1 & F1 & N1).
    rewrite E1 in H; injection H as <-.
    rewrite F1, D1, Hwa; split; [exact L2|split; [exact L3|]].
    intros Hps; rewrite (N1 (Hq ps Hps)); exact L1.
  - unfold TT.pick_label, TT.pick_label_with, bind at 1, get_ds in H;
      cbn [Z.eqb Pos.eqb] in H; unfold bind in H.
    destruct (TT.generate _ (wds w) f w) as [[tr0 wa]|] eqn:G; [|discriminate].
    destruct (TT_generate_spec _ _ f w wa tr0
                (fun d => preserves_partition_stratified d ts seed) G) as (te & Hwa & L1 & L2).
    destruct (assign_train_part_spec _ _ _ _ _ _ H wa) as (tr & w1 & E1 & D1 & F1 & N1).
    rewrite E1 in H; injection H as <-.
    rewrite F1, D1, Hwa; split; [exact L2|].
    intros Hps; rewrite (N1 (Hq ps Hps)); exact L1.
  - unfold TT_byclass.pick_label, TT.pick_label_with, bind at 1, get_ds in H;
      cbn [Z.eqb Pos.eqb] in H; unfold bind in H.
    destruct (TT.generate _ (wds w) f w) as [[tr0 wa]|] eqn:G; [|discriminate].
    destruct (TT_generate_spec _ _ f w wa tr0
                (fun d => preserves_partition_by_class d (label_test (src d)) seed) G)
      as (te & Hwa & L1 & L2).
    destruct (assign_train_part_spec _ _ _ _ _ _ H wa) as (tr & w1 & E1 & D1 & F1 & N1).
    rewrite E1 in H; injection H as <-.
    rewrite F1, D1, Hwa; split; [exact L2|].
    intros Hps; rewrite (N1 (Hq ps Hps)); exact L1.
Qed.

Lemma pick_label_generate_files_witness :
  let k := TrainValTest (1 # 2) (1 # 4) 1 in
  pick_label k 1 "part" (Some 5%Z) (ex_world 1) = Ok (tt, ex_gen_world k)
  /\ lookup_file "part_validation" (files (ex_gen_world k))
     = Some (FPart (validation_part (wds (ex_gen_world k)))).
Proof.
  intros k.
  assert (E : pick_label k 1 "part" (Some 5%Z) (ex_world 1) = Ok (tt, ex_gen_world k))
    by (vm_compute; reflexivity).
  split; [exact E|].
  exact (proj1 (pick_label_generate_files k "part" (Some 5%Z) _ _ E)).
Defined.
